(** * simcccc: serial interactive Meshtastic custom-channel chat client

    A shallow embedding of [simcccc.py] and the properties of its receive
    callback, its channel provisioning and its session life cycle.

    Python strings are modelled as Rocq strings, the bytes of their UTF-8
    encoding;
    a Python dict with string keys as a [gmap string _]; a Python list as
    a [list]; an object with assignable attributes as the map of its
    attributes.  Calls into the collaborators ([SerialInterface], the
    local node, [input], [time.sleep], ...) are answered by an explicit
    environment, and every call the program makes is recorded, in order,
    in a log of events.

    The subscription of [onReceive] to the topic "meshtastic.receive.text"
    is made before [main] runs; the event bus then calls [onReceive] from
    its own thread, once per packet.  The callback is modelled on its own,
    one call at a time.  An interrupt reaches [main] as an exception raised
    by the call it is waiting in: [KeyboardInterrupt], or [CancelledError]
    when the event loop turns Ctrl+C into the cancellation of the task. *)

From Stdlib Require Import ZArith String Ascii List Bool Lia.
From stdpp Require Import base option list strings gmap fin_maps.

Set Warnings "-register-all".

Open Scope string_scope.
Open Scope list_scope.

(** ** Python values *)

(** The values a packet delivered by the event bus is made of. *)
Inductive pyval :=
| PyNone
| PyBool (b : bool)
| PyInt (z : Z)
| PyStr (s : string)
| PyList (l : list pyval)
| PyDict (d : gmap string pyval).

(** An object is the map of its attributes. *)
Abbreviation pyobj := (gmap string pyval).

(** ** Exceptions *)

(** [Exception cls msg] stands for any instance of [Exception]: [cls] is
    its class name and [msg] what [str(e)] gives.  The three others derive
    from [BaseException] only, so that [except Exception] lets them pass. *)
Inductive exn :=
| Exception (cls msg : string)
| KeyboardInterrupt
| CancelledError
| SystemExit (code : Z).

Definition is_Exception (e : exn) : bool :=
  match e with Exception _ _ => true | _ => false end.

Definition is_KeyboardInterrupt (e : exn) : bool :=
  match e with KeyboardInterrupt => true | _ => false end.

(** [str(e)] for the exception bound by an [except Exception as e]. *)
Definition str_exn (e : exn) : string :=
  match e with
  | Exception _ msg => msg
  | KeyboardInterrupt => ""
  | CancelledError => ""
  | SystemExit code => ""
  end.

(** ** Events, state and the effect monad *)

(** What the program does to the outside world, one event per call.
    [Print text] is the text written to standard output, line end
    included.  Delays are in milliseconds. *)
Inductive event :=
| Print (text : string)
| SerialInterface (devPath : string)
| Sleep (ms : Z)
| LocalNode
| GetChannel (index : nat)
| SetAttr (index : nat) (attr : string) (v : pyval)
| WriteChannel (index : nat)
| WriteConfig
| Input (prompt : string)
| SendText (text : string) (channelIndex : nat)
| AsyncSleep (ms : Z)
| Close.

(** The mutable world: the log of events so far, oldest first, and the
    [channels] attribute of the connection's local node ([None] is Python's
    [None], which it holds until the device has reported its channels). *)
Record state := mkState {
  log : list event;
  channels : option (list pyobj)
}.

(** How a computation ends: it returns, it raises, or it is still blocked
    in a call that the environment has not answered. *)
Inductive outcome (A : Type) :=
| Normal (a : A)
| Raised (e : exn)
| Waiting.
Arguments Normal {A} a.
Arguments Raised {A} e.
Arguments Waiting {A}.

Definition M (A : Type) : Type := state -> outcome A * state.

Definition ret {A} (a : A) : M A := fun s => (Normal a, s).

Definition bind {A B} (m : M A) (k : A -> M B) : M B :=
  fun s =>
    match m s with
    | (Normal a, s') => k a s'
    | (Raised e, s') => (Raised e, s')
    | (Waiting, s') => (Waiting, s')
    end.

Definition raise {A} (e : exn) : M A := fun s => (Raised e, s).

Definition wait {A} : M A := fun s => (Waiting, s).

(** The state after the events [out] have been added to the log. *)
Definition logged (s : state) (out : list event) : state :=
  mkState (log s ++ out) (channels s).

Definition emit (ev : event) : M unit :=
  fun s => (Normal tt, logged s [ev]).

Declare Scope py_scope.
Delimit Scope py_scope with py.
Notation "'let*' x ':=' m 'in' k" := (bind m (fun x => k))
  (at level 10, x name, m at level 100, k at level 200) : py_scope.
Notation "m '>>' k" := (bind m (fun _ => k))
  (at level 90, right associativity) : py_scope.
Open Scope py_scope.

(** [try: body / except <class> as e: handler e], where [catches] tells
    which exceptions the clause matches. *)
Definition try_except {A} (body : M A) (catches : exn -> bool)
    (handler : exn -> M A) : M A :=
  fun s =>
    match body s with
    | (Raised e, s') => if catches e then handler e s' else (Raised e, s')
    | r => r
    end.

(** [try: body / finally: fin].  The [finally] suite runs however the body
    ends; what it raises replaces what the body raised. *)
Definition try_finally {A} (body : M A) (fin : M unit) : M A :=
  fun s =>
    match body s with
    | (Waiting, s') => (Waiting, s')
    | (Normal a, s') =>
        match fin s' with
        | (Normal _, s'') => (Normal a, s'')
        | (Raised e, s'') => (Raised e, s'')
        | (Waiting, s'') => (Waiting, s'')
        end
    | (Raised e, s') =>
        match fin s' with
        | (Normal _, s'') => (Raised e, s'')
        | (Raised e', s'') => (Raised e', s'')
        | (Waiting, s'') => (Waiting, s'')
        end
    end.

(** The answer of a collaborator to one call. *)
Inductive answer (A : Type) :=
| Returns (a : A)
| Fails (e : exn).
Arguments Returns {A} a.
Arguments Fails {A} e.

(** A call to a collaborator: it is logged, then it returns or raises as
    the environment says. *)
Definition call {A} (ev : event) (r : answer A) : M A :=
  emit ev >>
  match r with
  | Returns a => ret a
  | Fails e => raise e
  end.

(** The line feed character and the one-character string made of it. *)
Definition LF : ascii := ascii_of_nat 10.
Definition NL : string := String LF "".

(** [print(text)], with the default line end. *)
Definition print (text : string) : M unit := emit (Print (text +:+ NL)).

(** [print(text, end="", flush=True)]. *)
Definition print_noend (text : string) : M unit := emit (Print text).

(** [sys.exit(code)] raises [SystemExit]. *)
Definition sys_exit {A} (code : Z) : M A := raise (SystemExit code).

(** ** Operations on Python values *)

(** [bool(v)], as tested by [if not v]. *)
Definition truthy (v : pyval) : bool :=
  match v with
  | PyNone => false
  | PyBool b => b
  | PyInt z => negb (z =? 0)%Z
  | PyStr s => negb (String.eqb s "")
  | PyList l => negb (length l =? 0)%nat
  | PyDict d => negb (size d =? 0)%nat
  end.

(** [type(v).__name__]. *)
Definition type_name (v : pyval) : string :=
  match v with
  | PyNone => "NoneType"
  | PyBool _ => "bool"
  | PyInt _ => "int"
  | PyStr _ => "str"
  | PyList _ => "list"
  | PyDict _ => "dict"
  end.

(** [v.get(key, dflt)]: only a dict has the method. *)
Definition py_get (v : pyval) (key : string) (dflt : pyval) : M pyval :=
  match v with
  | PyDict d => ret (default dflt (d !! key))
  | _ => raise (Exception "AttributeError"
                  ("'" +:+ type_name v +:+ "' object has no attribute 'get'"))
  end.

(** [v == PyStr key], as the membership test of a list compares. *)
Definition is_str (key : string) (v : pyval) : bool :=
  match v with
  | PyStr s => String.eqb key s
  | _ => false
  end.

(** [key in v] for a string [key]: a key of a dict, an element of a list,
    a substring of a string; the other values are not containers. *)
Definition py_contains (key : string) (v : pyval) : M bool :=
  match v with
  | PyDict d => ret (bool_decide (is_Some (d !! key)))
  | PyList l => ret (existsb (is_str key) l)
  | PyStr s => ret (bool_decide (is_Some (String.index 0 key s)))
  | _ => raise (Exception "TypeError"
                  ("argument of type '" +:+ type_name v +:+ "' is not iterable"))
  end.

(** [v[key]] for a string [key]. *)
Definition py_getitem (v : pyval) (key : string) : M pyval :=
  match v with
  | PyDict d =>
      match d !! key with
      | Some x => ret x
      | None => raise (Exception "KeyError" ("'" +:+ key +:+ "'"))
      end
  | PyStr _ => raise (Exception "TypeError" "string indices must be integers, not 'str'")
  | PyList _ => raise (Exception "TypeError" "list indices must be integers or slices, not str")
  | _ => raise (Exception "TypeError"
                  ("'" +:+ type_name v +:+ "' object is not subscriptable"))
  end.

(** ** The receive callback *)

Section Receive.

(** What a replacement field [{v}] of an f-string renders, Python's
    [format(v, "")], that is [str(v)] for the values at hand.  It is a
    built-in of the runtime; the callback is modelled over any rendering. *)
Variable py_str : pyval -> string.

(** [onReceive(packet=None, interface=None)]. *)
Definition onReceive {I : Type} (packet : pyval) (interface : I) : M unit :=
  if negb (truthy packet) then ret tt
  else
    let* decoded := py_get packet "decoded" (PyDict ∅) in
    let* has_text := py_contains "text" decoded in
    if has_text : bool then
      let* sender := py_get packet "fromId" (PyStr "unknown") in
      let* message := py_getitem decoded "text" in
      print (NL +:+ py_str sender +:+ ": " +:+ py_str message) >>
      print_noend "Ch1> "
    else ret tt.

End Receive.

(** ** Configuration constants *)

Definition CUSTOM_CHANNEL_NAME : string := "DC540".
Definition CUSTOM_CHANNEL_PSK : string :=
  "OVRpanBCYjZ2WmVIZTRheVlSZDZZWGxUcElFNFRSaWo=".

(** ** The environment of one run *)

(** One turn of the send loop: what [input] answers (a line, or the
    exception that interrupts the wait), and what [sendText] and
    [asyncio.sleep] answer if the loop gets to them. *)
Record turn := mkTurn {
  line : answer string;
  sent : answer unit;
  paused : answer unit
}.

(** Everything the outside world contributes to one run of the program:
    the command line, the answer to every call into a collaborator, the
    [channels] of the local node when the connection is up, and whether
    the channel object accepts each of the three assignments ([name_set],
    [psk_set], [preset_set]: an object may refuse an attribute). *)
Record env := mkEnv {
  argv : list string;
  opened : answer unit;
  settled : answer unit;
  node_channels : option (list pyobj);
  name_set : answer unit;
  psk_set : answer unit;
  preset_set : answer unit;
  channel_written : answer unit;
  config_written : answer unit;
  turns : list turn;
  closed : answer unit
}.

(** ** [str.strip()] *)

(** Strings hold the UTF-8 encoding of Python's text.  [str.isspace]
    holds of the characters U+0009 to U+000D, U+001C to U+0020, U+0085,
    U+00A0, U+1680, U+2000 to U+200A, U+2028, U+2029, U+202F, U+205F and
    U+3000; these are the ones [str.strip()] removes. *)

(** The ASCII characters for which [str.isspace] holds. *)
Definition is_space (c : ascii) : bool :=
  let n := nat_of_ascii c in
  ((9 <=? n) && (n <=? 13) || (28 <=? n) && (n <=? 32))%nat.

(** The two-byte encodings of U+0085 and U+00A0. *)
Definition is_space2 (x y : nat) : bool :=
  ((x =? 194) && ((y =? 133) || (y =? 160)))%nat.

(** The three-byte encodings of U+1680, U+2000 to U+200A, U+2028, U+2029,
    U+202F, U+205F and U+3000. *)
Definition is_space3 (x y z : nat) : bool :=
  ((x =? 225) && (y =? 154) && (z =? 128) ||
   (x =? 226) && (y =? 128) &&
     ((128 <=? z) && (z <=? 138) || (z =? 168) || (z =? 169) || (z =? 175)) ||
   (x =? 226) && (y =? 129) && (z =? 159) ||
   (x =? 227) && (y =? 128) && (z =? 128))%nat.

(** The number of bytes of the white-space character that the bytes start
    with, 0 when they start with none. *)
Definition space_width (l : list ascii) : nat :=
  match l with
  | [] => 0
  | a :: r =>
      if is_space a then 1
      else
        match r with
        | [] => 0
        | b :: r' =>
            if is_space2 (nat_of_ascii a) (nat_of_ascii b) then 2
            else
              match r' with
              | [] => 0
              | c :: _ =>
                  if is_space3 (nat_of_ascii a) (nat_of_ascii b) (nat_of_ascii c)
                  then 3 else 0
              end
        end
  end.

(** The bytes without the white space they start with; [n] bounds the
    number of characters removed. *)
Fixpoint lstrip_fuel (n : nat) (l : list ascii) : list ascii :=
  match n with
  | 0 => l
  | S n' =>
      match space_width l with
      | 0 => l
      | S k => lstrip_fuel n' (drop (S k) l)
      end
  end.

Definition lstrip_bytes (l : list ascii) : list ascii :=
  lstrip_fuel (length l) l.

(** White space and nothing else. *)
Definition all_space (l : list ascii) : bool :=
  match lstrip_bytes l with
  | [] => true
  | _ :: _ => false
  end.

(** The bytes without the white space they end with. *)
Fixpoint rstrip_bytes (l : list ascii) : list ascii :=
  match l with
  | [] => []
  | c :: l' => if all_space l then [] else c :: rstrip_bytes l'
  end.

(** [s.strip()]. *)
Definition strip (s : string) : string :=
  string_of_list_ascii
    (rstrip_bytes (lstrip_bytes (list_ascii_of_string s))).

(** ** Channel provisioning *)

(** [iface.localNode]. *)
Definition local_node : M unit := emit LocalNode.

(** [node.channels[i]]: the result is a reference to the object in the
    list, modelled by its index. *)
Definition get_channel (i : nat) : M nat :=
  emit (GetChannel i) >>
  fun s =>
    match channels s with
    | None =>
        (Raised (Exception "TypeError" "'NoneType' object is not subscriptable"), s)
    | Some chs =>
        match chs !! i with
        | Some _ => (Normal i, s)
        | None => (Raised (Exception "IndexError" "list index out of range"), s)
        end
    end.

(** [ch.attr = v] on the channel object that [ch] refers to.  The object
    accepts the assignment or raises, as the environment says; when it
    accepts, the object in the node's list is the one that changes. *)
Definition setattr (ch : nat) (attr : string) (v : pyval) (r : answer unit) :
    M unit :=
  emit (SetAttr ch attr v) >>
  match r with
  | Returns _ =>
      fun s =>
        (Normal tt, mkState (log s) (alter (insert attr v) ch <$> channels s))
  | Fails e => raise e
  end.

(** The body of the second [try] of [main]. *)
Definition provision (w : env) : M unit :=
  print "Setting custom Channel 1 config (DC540 + custom PSK)..." >>
  local_node >>
  let* ch1 := get_channel 1 in
  setattr ch1 "name" (PyStr CUSTOM_CHANNEL_NAME) (name_set w) >>
  setattr ch1 "psk" (PyStr CUSTOM_CHANNEL_PSK) (psk_set w) >>
  setattr ch1 "usePreset" (PyBool false) (preset_set w) >>
  call (WriteChannel 1) (channel_written w) >>
  call WriteConfig (config_written w) >>
  print ("Channel 1 set to DC540 with custom PSK." +:+ NL).

(** ** The send loop *)

(** The [while True] loop of [main], over the turns the environment
    plays.  When they are used up the program is left waiting in
    [input]. *)
Fixpoint send_loop (ts : list turn) : M unit :=
  match ts with
  | [] => emit (Input "Ch1> ") >> wait
  | t :: ts' =>
      let* msg := call (Input "Ch1> ") (line t) in
      if negb (String.eqb msg "") then
        call (SendText msg 1) (sent t) >>
        call (AsyncSleep 100) (paused t) >>
        send_loop ts'
      else send_loop ts'
  end.

(** ** [main] *)

(** The first [try] statement of [main]. *)
Definition connect (w : env) (port : string) : M unit :=
  try_except
    (call (SerialInterface port) (opened w) >>
     print "Connected to Meshtastic device over serial!" >>
     call (Sleep 2000) (settled w))
    is_Exception
    (fun e =>
       print ("Error initializing SerialInterface: " +:+ str_exn e) >>
       sys_exit 1).

(** The second [try] statement of [main]. *)
Definition configure (w : env) : M unit :=
  try_except (provision w) is_Exception
    (fun e => print ("Error configuring Channel 1: " +:+ str_exn e)).

Definition banner : M unit :=
  print "Serial Interactive Meshtastic Custom Channel Chat Client 0.1.0" >>
  print "--------------------------------------------------------------" >>
  print "Type your message and press Enter to send." >>
  print ("Press Ctrl+C to exit..." +:+ NL).

(** The last [try] statement of [main]. *)
Definition session (w : env) : M unit :=
  try_finally
    (try_except (send_loop (turns w)) is_KeyboardInterrupt
       (fun _ => print (NL +:+ "Exiting...")))
    (call Close (closed w) >> sys_exit 0).

(** [main] up to the send loop: the argument check, the connection, the
    channel configuration and the banner. *)
Definition startup (w : env) : M unit :=
  (if (length (argv w) <? 2)%nat then
     print "Usage: python simcccc.py <SERIAL_PORT>" >> sys_exit 1
   else ret tt) >>
  let port := strip (nth 1 (argv w) "") in
  print ("Attempting to connect to Meshtastic device at serial port: " +:+ port) >>
  connect w port >>
  configure w >>
  banner.

Definition main (w : env) : M unit :=
  startup w >> session w.

(** The state in which [main] starts: nothing logged yet. *)
Definition boot (w : env) : state := mkState [] (node_channels w).

(** A run of the program, [asyncio.run(main())].  An exception that
    leaves [main], [SystemExit] included, leaves [asyncio.run] too. *)
Definition run (w : env) : outcome unit * state := main w (boot w).

(** The exit status of the process, when [main] ends by [sys.exit] (or by
    returning); an exception that leaves [main] ends the process with a
    traceback instead. *)
Definition exit_status (o : outcome unit) : option Z :=
  match o with
  | Normal _ => Some 0%Z
  | Raised (SystemExit code) => Some code
  | _ => None
  end.

(** ** Base64 *)

(** The program hands the key to the channel slot as base64 text and never
    decodes it.  To say how many bytes the constant stands for, the standard
    decoding (RFC 4648, what Python's [base64.b64decode] computes on
    well-formed text) is written out here. *)

(** The value of a character of the base64 alphabet. *)
Definition b64_value (c : ascii) : option Z :=
  let n := Z.of_nat (nat_of_ascii c) in
  if ((65 <=? n) && (n <=? 90))%Z then Some (n - 65)%Z
  else if ((97 <=? n) && (n <=? 122))%Z then Some (n - 71)%Z
  else if ((48 <=? n) && (n <=? 57))%Z then Some (n + 4)%Z
  else if (n =? 43)%Z then Some 62%Z
  else if (n =? 47)%Z then Some 63%Z
  else None.

Definition is_pad (c : ascii) : bool := (nat_of_ascii c =? 61)%nat.

(** The three bytes held by four 6-bit values. *)
Definition b64_bytes (a b c d : Z) : list Z :=
  let word :=
    Z.lor (Z.lor (Z.shiftl a 18) (Z.shiftl b 12)) (Z.lor (Z.shiftl c 6) d) in
  [Z.land (Z.shiftr word 16) 255; Z.land (Z.shiftr word 8) 255; Z.land word 255].

(** A group of four characters without padding. *)
Definition b64_group (a b c d : ascii) : option (list Z) :=
  match b64_value a, b64_value b, b64_value c, b64_value d with
  | Some va, Some vb, Some vc, Some vd => Some (b64_bytes va vb vc vd)
  | _, _, _, _ => None
  end.

(** The last group, which may end in one or two padding characters and
    then holds two bytes or one. *)
Definition b64_last (a b c d : ascii) : option (list Z) :=
  if is_pad d then
    if is_pad c then
      match b64_value a, b64_value b with
      | Some va, Some vb => Some (take 1 (b64_bytes va vb 0 0))
      | _, _ => None
      end
    else
      match b64_value a, b64_value b, b64_value c with
      | Some va, Some vb, Some vc => Some (take 2 (b64_bytes va vb vc 0))
      | _, _, _ => None
      end
  else b64_group a b c d.

(** Decoding of the characters, four by four. *)
Fixpoint b64decode_chars (cs : list ascii) : option (list Z) :=
  match cs with
  | [] => Some []
  | a :: b :: c :: d :: rest =>
      match rest with
      | [] => b64_last a b c d
      | _ =>
          match b64_group a b c d, b64decode_chars rest with
          | Some bytes, Some bytes' => Some (bytes ++ bytes')
          | _, _ => None
          end
      end
  | _ => None
  end.

Definition b64decode (s : string) : option (list Z) :=
  b64decode_chars (list_ascii_of_string s).

(** * Vocabulary of the properties *)

Definition is_print (ev : event) : Prop :=
  match ev with Print _ => True | _ => False end.

(** [m] neither reads nor changes the state: its outcome and what it
    prints are the same from every state. *)
Definition printer {A} (m : M A) (o : outcome A) (out : list event) : Prop :=
  Forall is_print out /\ forall s, m s = (o, logged s out).

(** Every computation built from the value operations and [print] is such
    a printer, whatever it returns. *)
Definition prints_only {A} (m : M A) : Prop := exists o out, printer m o out.

(** The field [packet["decoded"]["text"]], when the packet is a dict
    whose "decoded" entry is a dict. *)
Definition decoded_text (packet : pyval) : option pyval :=
  match packet with
  | PyDict d =>
      match d !! "decoded" with
      | Some (PyDict dd) => dd !! "text"
      | _ => None
      end
  | _ => None
  end.

(** The field [packet["fromId"]]. *)
Definition from_id (packet : pyval) : option pyval :=
  match packet with
  | PyDict d => d !! "fromId"
  | _ => None
  end.

(** The shape of the packets the event bus delivers: no packet at all, or
    a dict whose "decoded" entry, if there is one, is a dict. *)
Definition packet_shaped (packet : pyval) : Prop :=
  match packet with
  | PyNone => True
  | PyDict d =>
      match d !! "decoded" with
      | Some (PyDict _) | None => True
      | Some _ => False
      end
  | _ => False
  end.

(** Sample values: a rendering that is [str] on strings, a text packet
    and a telemetry packet. *)
Definition str_of_text (v : pyval) : string :=
  match v with PyStr x => x | _ => "" end.

Definition text_packet : pyval :=
  PyDict (<["decoded" := PyDict (<["text" := PyStr "hi"]> ∅)]>
          (<["fromId" := PyStr "!abcd1234"]> ∅)).

Definition telemetry_packet : pyval :=
  PyDict (<["decoded" := PyDict (<["portnum" := PyStr "TELEMETRY_APP"]> ∅)]>
          (<["fromId" := PyStr "!abcd1234"]> ∅)).

(** ** Events of a run *)

Definition is_close (ev : event) : bool :=
  match ev with Close => true | _ => false end.

Definition is_input (ev : event) : bool :=
  match ev with Input _ => true | _ => false end.

(** How many times [close()] was called. *)
Definition count_close (l : list event) : nat := length (List.filter is_close l).

(** Whether the send loop was entered: it is the only caller of [input]. *)
Definition entered_loop (l : list event) : bool := existsb is_input l.

(** Neither a call of [input] nor of [close()]. *)
Definition quiet (ev : event) : Prop :=
  is_input ev = false /\ is_close ev = false.

Definition not_close (ev : event) : Prop := is_close ev = false.

(** A send carries a text that is not empty, on channel 1. *)
Definition send_ok (ev : event) : Prop :=
  match ev with
  | SendText text channelIndex => text <> "" /\ channelIndex = 1
  | _ => True
  end.

(** Every event that [m] adds to the log satisfies [P]. *)
Definition emits (P : event -> Prop) {A} (m : M A) : Prop :=
  forall s, exists out, log (snd (m s)) = log s ++ out /\ Forall P out.

(** The port that [main] connects to. *)
Definition port_of (w : env) : string := strip (nth 1 (argv w) "").

(** What [main] logs up to the end of the settle delay, when the
    connection opens. *)
Definition connected_log (w : env) : list event :=
  [Print ("Attempting to connect to Meshtastic device at serial port: "
          +:+ port_of w +:+ NL);
   SerialInterface (port_of w);
   Print ("Connected to Meshtastic device over serial!" +:+ NL);
   Sleep 2000].

Definition banner_log : list event :=
  [Print ("Serial Interactive Meshtastic Custom Channel Chat Client 0.1.0" +:+ NL);
   Print ("--------------------------------------------------------------" +:+ NL);
   Print ("Type your message and press Enter to send." +:+ NL);
   Print (("Press Ctrl+C to exit..." +:+ NL) +:+ NL)].

(** What [main] logs between a provisioning that failed with the message
    [msg] and the send loop. *)
Definition reported_log (msg : string) : list event :=
  Print ("Error configuring Channel 1: " +:+ msg +:+ NL) :: banner_log.

(** The first [try] of [main] ends in its handler: the constructor raised
    an [Exception], or the settle delay did after it. *)
Definition connect_fails (w : env) : Prop :=
  exists cls msg,
    opened w = Fails (Exception cls msg) \/
    (opened w = Returns tt /\ settled w = Fails (Exception cls msg)).

(** The steps of a provisioning that succeeds, in order. *)
Definition provision_steps : list event :=
  [Print ("Setting custom Channel 1 config (DC540 + custom PSK)..." +:+ NL);
   LocalNode;
   GetChannel 1;
   SetAttr 1 "name" (PyStr CUSTOM_CHANNEL_NAME);
   SetAttr 1 "psk" (PyStr CUSTOM_CHANNEL_PSK);
   SetAttr 1 "usePreset" (PyBool false);
   WriteChannel 1;
   WriteConfig;
   Print (("Channel 1 set to DC540 with custom PSK." +:+ NL) +:+ NL)].

(** The channel object after the three assignments of [main]. *)
Definition provisioned (c : pyobj) : pyobj :=
  <["usePreset" := PyBool false]>
    (<["psk" := PyStr CUSTOM_CHANNEL_PSK]>
       (<["name" := PyStr CUSTOM_CHANNEL_NAME]> c)).

(** The channel object after the first [k] of the three assignments. *)
Definition assigned (k : nat) (c : pyobj) : pyobj :=
  match k with
  | 0 => c
  | 1 => <["name" := PyStr CUSTOM_CHANNEL_NAME]> c
  | 2 => <["psk" := PyStr CUSTOM_CHANNEL_PSK]>
           (<["name" := PyStr CUSTOM_CHANNEL_NAME]> c)
  | _ => provisioned c
  end.

(** How many of the [provision_steps] a provisioning gets through: it
    stops with the step that raises, a lookup that finds no slot 1, an
    assignment that the channel object refuses, or a write that fails. *)
Definition steps_done (w : env) (s : state) : nat :=
  match channels s with
  | None => 3
  | Some chs =>
      match chs !! 1, name_set w, psk_set w, preset_set w,
            channel_written w, config_written w with
      | None, _, _, _, _, _ => 3
      | Some _, Fails _, _, _, _, _ => 4
      | Some _, Returns _, Fails _, _, _, _ => 5
      | Some _, Returns _, Returns _, Fails _, _, _ => 6
      | Some _, Returns _, Returns _, Returns _, Fails _, _ => 7
      | Some _, Returns _, Returns _, Returns _, Returns _, Fails _ => 8
      | Some _, Returns _, Returns _, Returns _, Returns _, Returns _ => 9
      end
  end.

(** The channel object accepts the three assignments. *)
Definition assignments_accepted (w : env) : Prop :=
  name_set w = Returns tt /\ psk_set w = Returns tt /\ preset_set w = Returns tt.

(** Sample runs.  A chat on COM3: one message, one empty line, then
    Ctrl+C; a run without a port argument; a run whose port cannot be
    opened; a run on a node that has not reported its channels. *)
Definition ok : answer unit := Returns tt.

Definition chat_env : env :=
  mkEnv ["simcccc.py"; "COM3"] ok ok (Some [∅; ∅]) ok ok ok ok ok
    [mkTurn (Returns "hello") ok ok;
     mkTurn (Returns "") ok ok;
     mkTurn (Fails KeyboardInterrupt) ok ok]
    ok.

Definition no_port_env : env :=
  mkEnv ["simcccc.py"] ok ok (Some [∅; ∅]) ok ok ok ok ok [] ok.

Definition open_failure_env : env :=
  mkEnv ["simcccc.py"; "COM3"]
    (Fails (Exception "SerialException" "could not open port COM3"))
    ok None ok ok ok ok ok [] ok.

Definition no_channels_env : env :=
  mkEnv ["simcccc.py"; "COM3"] ok ok None ok ok ok ok ok
    [mkTurn (Fails KeyboardInterrupt) ok ok] ok.

(** More sample runs: Ctrl+C during the settle delay; a [writeChannel]
    that fails; Ctrl+C while the channel is written; a channel object
    that has no attribute [name] to assign. *)
Definition interrupted_settle_env : env :=
  mkEnv ["simcccc.py"; "COM3"] ok (Fails KeyboardInterrupt) None ok ok ok ok ok
    [] ok.

Definition write_failure_env : env :=
  mkEnv ["simcccc.py"; "COM3"] ok ok (Some [∅; ∅]) ok ok ok
    (Fails (Exception "OSError" "write failed")) ok [] ok.

Definition interrupted_write_env : env :=
  mkEnv ["simcccc.py"; "COM3"] ok ok (Some [∅; ∅]) ok ok ok
    (Fails KeyboardInterrupt) ok [] ok.

Definition refused_name_env : env :=
  mkEnv ["simcccc.py"; "COM3"] ok ok (Some [∅; ∅])
    (Fails (Exception "AttributeError" "name")) ok ok ok ok
    [mkTurn (Fails KeyboardInterrupt) ok ok] ok.

(** ** Turns of the send loop *)

(** The exception with which a turn ends the loop, if it does: the one
    [input] raises, or, for a line that is not empty, the one [sendText] or
    the pause after it raises. *)
Definition turn_raises (t : turn) : option exn :=
  match line t with
  | Fails e => Some e
  | Returns msg =>
      if negb (String.eqb msg "") then
        match sent t, paused t with
        | Fails e, _ => Some e
        | Returns _, Fails e => Some e
        | Returns _, Returns _ => None
        end
      else None
  end.

(** The calls the loop makes during a turn. *)
Definition turn_events (t : turn) : list event :=
  Input "Ch1> " ::
  match line t with
  | Fails _ => []
  | Returns msg =>
      if negb (String.eqb msg "") then
        SendText msg 1 ::
        match sent t with
        | Fails _ => []
        | Returns _ => [AsyncSleep 100]
        end
      else []
  end.

(** The texts of the [sendText] calls of a log, oldest first. *)
Definition sent_texts (l : list event) : list string :=
  omap (fun ev => match ev with SendText text _ => Some text | _ => None end) l.

(** The lines that [input] returned during the turns, oldest first. *)
Definition typed_lines (ts : list turn) : list string :=
  omap (fun t => match line t with Returns msg => Some msg | Fails _ => None end) ts.

(** What the handler of the last [try] prints for the exception that ended
    the loop: the exit notice for [KeyboardInterrupt], nothing otherwise. *)
Definition farewell (e : exn) : list event :=
  if is_KeyboardInterrupt e then [Print ((NL +:+ "Exiting...") +:+ NL)] else [].

(** How the process ends once the [finally] clause has called [close()]. *)
Definition after_close (w : env) : outcome unit :=
  match closed w with
  | Returns _ => Raised (SystemExit 0)
  | Fails e => Raised e
  end.

(** The environment [w] with another command line. *)
Definition with_argv (w : env) (a : list string) : env :=
  mkEnv a (opened w) (settled w) (node_channels w) (name_set w) (psk_set w)
    (preset_set w) (channel_written w) (config_written w) (turns w) (closed w).

(** An operation on the connection: anything but printing, constructing
    the interface and the settle delay. *)
Definition is_device_op (ev : event) : bool :=
  match ev with
  | Print _ | SerialInterface _ | Sleep _ => false
  | _ => true
  end.

(** The no-break space U+00A0, in UTF-8. *)
Definition NBSP : string :=
  String (ascii_of_nat 194) (String (ascii_of_nat 160) EmptyString).

(** No white-space character at the start nor at the end. *)
Definition trimmed (s : string) : Prop :=
  space_width (list_ascii_of_string s) = 0 /\
  forall pre w,
    list_ascii_of_string s = pre ++ w -> w <> [] -> all_space w = false.

(** ** Values that a "decoded" entry should not be *)

(** Neither a dict, nor a list, nor a string: [in] does not apply. *)
Definition not_container (v : pyval) : Prop :=
  match v with
  | PyNone | PyBool _ | PyInt _ => True
  | _ => False
  end.

(** A string with the substring "text", or a list with the element
    "text": [in] holds of them, but they take no string subscript. *)
Definition sequence_with_text (v : pyval) : bool :=
  match v with
  | PyStr s => bool_decide (is_Some (String.index 0 "text" s))
  | PyList l => existsb (is_str "text") l
  | _ => false
  end.

(** ** The node across a computation *)

(** [m] leaves the channels of the node as they are. *)
Definition keeps_channels {A} (m : M A) : Prop :=
  forall s, channels (snd (m s)) = channels s.

(** From [s] to [s'] the channels are unchanged, or slot 1, which exists,
    has received the first [k] of the three assignments, for a [k] that
    [K] allows, and nothing else has changed. *)
Definition at_most_provisioned (K : nat -> Prop) (s s' : state) : Prop :=
  channels s' = channels s \/
  exists chs k,
    channels s = Some chs /\ is_Some (chs !! 1) /\ K k /\
    channels s' = Some (alter (assigned k) 1 chs).

(** An interface is constructed for the stripped port only. *)
Definition opens_port (w : env) (ev : event) : Prop :=
  match ev with
  | SerialInterface devPath => devPath = port_of w
  | _ => True
  end.

(** * Properties *)

(** ** The log *)

Lemma logged_nil s : logged s [] = s.
Proof. destruct s; unfold logged; simpl. by rewrite app_nil_r. Qed.

Lemma logged_logged s out out' :
  logged (logged s out) out' = logged s (out ++ out').
Proof. unfold logged; simpl. by rewrite <- app_assoc. Qed.

(** ** Computations that only print *)

Lemma printer_ret {A} (a : A) : printer (ret a) (Normal a) [].
Proof. split; [constructor | intros s; unfold ret; by rewrite logged_nil]. Qed.

Lemma printer_raise {A} (e : exn) : printer (@raise A e) (Raised e) [].
Proof. split; [constructor | intros s; unfold raise; by rewrite logged_nil]. Qed.

Lemma printer_print text : printer (print text) (Normal tt) [Print (text +:+ NL)].
Proof. split; [repeat constructor | reflexivity]. Qed.

Lemma printer_print_noend text :
  printer (print_noend text) (Normal tt) [Print text].
Proof. split; [repeat constructor | reflexivity]. Qed.

Lemma printer_bind {A B} (m : M A) (k : A -> M B) a out o out' :
  printer m (Normal a) out -> printer (k a) o out' ->
  printer (bind m k) o (out ++ out').
Proof.
  intros [Hout Hm] [Hout' Hk]. split.
  - by apply Forall_app.
  - intros s. unfold bind. rewrite Hm, Hk. by rewrite logged_logged.
Qed.

Lemma printer_bind_raised {A B} (m : M A) (k : A -> M B) e out :
  printer m (Raised e) out -> printer (bind m k) (Raised e) out.
Proof. intros [Hout Hm]. split; [done |]. intros s. unfold bind. by rewrite Hm. Qed.

Lemma prints_only_bind {A B} (m : M A) (k : A -> M B) :
  prints_only m -> (forall a, prints_only (k a)) -> prints_only (bind m k).
Proof.
  intros (o & out & Hm) Hk. destruct o as [a | e |].
  - destruct (Hk a) as (o' & out' & Hk').
    exists o', (out ++ out'). by eapply printer_bind.
  - exists (Raised e), out. by apply printer_bind_raised.
  - exists Waiting, out. destruct Hm as [Hout Hm]. split; [done |].
    intros s. unfold bind. by rewrite Hm.
Qed.

Lemma prints_only_py_get v key dflt : prints_only (py_get v key dflt).
Proof.
  destruct v; simpl; eauto using printer_ret, printer_raise.
  all: eexists _, _; first [apply printer_ret | apply printer_raise].
Qed.

Lemma prints_only_py_contains key v : prints_only (py_contains key v).
Proof.
  destruct v; simpl;
    eexists _, _; first [apply printer_ret | apply printer_raise].
Qed.

Lemma prints_only_py_getitem v key : prints_only (py_getitem v key).
Proof.
  destruct v as [| | | | |d]; simpl; try destruct (d !! key);
    eexists _, _; first [apply printer_ret | apply printer_raise].
Qed.

Lemma prints_only_onReceive py_str {I} packet (interface : I) :
  prints_only (onReceive py_str packet interface).
Proof.
  unfold onReceive. destruct (negb (truthy packet)).
  { eexists _, _; apply printer_ret. }
  apply prints_only_bind; [apply prints_only_py_get |]. intros decoded.
  apply prints_only_bind; [apply prints_only_py_contains |]. intros [|].
  - apply prints_only_bind; [apply prints_only_py_get |]. intros sender.
    apply prints_only_bind; [apply prints_only_py_getitem |]. intros message.
    apply prints_only_bind; [eexists _, _; apply printer_print |]. intros _.
    eexists _, _; apply printer_print_noend.
  - eexists _, _; apply printer_ret.
Qed.

(** The interface argument is never used. *)
Lemma onReceive_interface py_str {I J} packet (i : I) (j : J) :
  onReceive py_str packet i = onReceive py_str packet j.
Proof. reflexivity. Qed.

(** A dict with an entry is not empty, hence true. *)
Lemma truthy_dict (d : pyobj) key v : d !! key = Some v -> truthy (PyDict d) = true.
Proof.
  intros Hd. simpl. apply negb_true_iff, Nat.eqb_neq.
  intros Hsize. apply map_size_empty_inv in Hsize. subst d.
  by rewrite lookup_empty in Hd.
Qed.

(** ** The receive callback *)

Lemma append_assoc (a b c : string) : (a +:+ b) +:+ c = a +:+ (b +:+ c).
Proof.
  induction a as [| x a IH]; [done |].
  change (String x ((a +:+ b) +:+ c) = String x (a +:+ b +:+ c)).
  by f_equal.
Qed.

(** C2.  For a packet with a text field under "decoded", the callback
    writes a line break, the line "<sender>: <text>" with its line end, and
    then the prompt "Ch1> " again; the sender is the packet's "fromId"
    field when it has one and "unknown" otherwise.  Nothing else happens,
    and the callback returns. *)
Theorem onReceive_text_message (py_str : pyval -> string) {I : Type}
    (interface : I) (packet text : pyval) (s : state) :
  decoded_text packet = Some text ->
  onReceive py_str packet interface s =
    (Normal tt,
     logged s
       [Print (NL +:+ (py_str (default (PyStr "unknown") (from_id packet))
                       +:+ ": " +:+ py_str text) +:+ NL);
        Print "Ch1> "]).
Proof.
  intros Htext.
  destruct packet as [| | | | | d]; try discriminate. simpl in Htext.
  destruct (d !! "decoded") as [decoded |] eqn:Hdecoded; [| discriminate].
  destruct decoded as [| | | | | dd]; try discriminate.
  unfold onReceive. rewrite (truthy_dict d "decoded" _ Hdecoded).
  unfold bind, py_get, ret; simpl. rewrite Hdecoded; simpl.
  rewrite Htext; simpl.
  unfold print, print_noend, emit. rewrite logged_logged.
  by rewrite !append_assoc.
Qed.

Lemma onReceive_text_message_witness :
  decoded_text text_packet = Some (PyStr "hi") /\
  onReceive str_of_text text_packet tt (mkState [] None) =
    (Normal tt,
     mkState [Print (NL +:+ "!abcd1234: hi" +:+ NL); Print "Ch1> "] None).
Proof.
  split; [reflexivity |].
  exact (onReceive_text_message str_of_text tt text_packet (PyStr "hi")
           (mkState [] None) eq_refl).
Defined.

(** C6, as the code has it.  A packet that is missing (or otherwise
    false), and a packet that is a dict with no "decoded" entry or with a
    "decoded" entry that is a dict without a "text" entry, are ignored:
    the callback returns normally and leaves the state, the log included,
    as it was. *)
Theorem onReceive_without_text (py_str : pyval -> string) {I : Type}
    (interface : I) (packet : pyval) (s : state) :
  truthy packet = false \/ (packet_shaped packet /\ decoded_text packet = None) ->
  onReceive py_str packet interface s = (Normal tt, s).
Proof.
  intros [Hfalse | [Hshape Hnone]]; unfold onReceive.
  { by rewrite Hfalse. }
  destruct (truthy packet) eqn:Htruthy; [| done]. simpl.
  destruct packet as [| | | | | d]; try done.
  simpl in Hshape, Hnone. unfold bind, py_get, ret; simpl.
  destruct (d !! "decoded") as [decoded |]; simpl.
  - destruct decoded as [| | | | | dd]; try done. simpl. by rewrite Hnone.
  - by rewrite lookup_empty.
Qed.

Lemma onReceive_without_text_witness :
  (truthy PyNone = false /\
   onReceive str_of_text PyNone tt (mkState [] None) =
     (Normal tt, mkState [] None)) /\
  ((packet_shaped telemetry_packet /\ decoded_text telemetry_packet = None) /\
   onReceive str_of_text telemetry_packet tt (mkState [] None) =
     (Normal tt, mkState [] None)).
Proof.
  split.
  - split; [reflexivity |].
    exact (onReceive_without_text str_of_text tt PyNone (mkState [] None)
             (or_introl eq_refl)).
  - assert (Hshape : packet_shaped telemetry_packet /\
                     decoded_text telemetry_packet = None)
      by (split; [exact I | reflexivity]).
    split; [exact Hshape |].
    exact (onReceive_without_text str_of_text tt telemetry_packet
             (mkState [] None) (or_intror Hshape)).
Defined.

(** C6, as the claim states it, fails: a packet whose "decoded" entry is
    [None] has no text field under that key, and the callback does not
    ignore it but raises [TypeError]. *)
Lemma onReceive_raises_without_text :
  decoded_text (PyDict (<["decoded" := PyNone]> ∅)) = None /\
  onReceive str_of_text (PyDict (<["decoded" := PyNone]> ∅)) tt
    (mkState [] None) =
    (Raised (Exception "TypeError" "argument of type 'NoneType' is not iterable"),
     mkState [] None).
Proof. split; reflexivity. Qed.

(** Outside that shape the callback does raise: a "decoded" entry that is
    [None] is not a container. *)
Example onReceive_decoded_None :
  onReceive (fun _ => "") (PyDict (<["decoded" := PyNone]> ∅)) tt (mkState [] None) =
    (Raised (Exception "TypeError" "argument of type 'NoneType' is not iterable"),
     mkState [] None).
Proof. reflexivity. Qed.

(** C10.  The outcome of the callback and what it prints are fixed by the
    packet alone: they are the same for every interface argument and from
    every state of the connection, which the callback leaves unchanged; the
    only events it adds to the log are prints. *)
Theorem onReceive_ignores_interface (py_str : pyval -> string) (packet : pyval) :
  exists (o : outcome unit) (out : list event),
    Forall is_print out /\
    forall (I : Type) (interface : I) (s : state),
      onReceive py_str packet interface s = (o, logged s out).
Proof.
  destruct (prints_only_onReceive py_str packet tt) as (o & out & Hout & Hrun).
  exists o, out. split; [done |]. intros I interface s.
  rewrite (onReceive_interface py_str packet interface tt). apply Hrun.
Qed.

(** ** What a computation adds to the log *)

Section Emits.

Context (P : event -> Prop).

Lemma emits_ret {A} (a : A) : emits P (ret a).
Proof. intros s. exists []. by rewrite app_nil_r. Qed.

Lemma emits_raise {A} (e : exn) : emits P (@raise A e).
Proof. intros s. exists []. by rewrite app_nil_r. Qed.

Lemma emits_wait {A} : emits P (@wait A).
Proof. intros s. exists []. by rewrite app_nil_r. Qed.

Lemma emits_emit ev : P ev -> emits P (emit ev).
Proof. intros Hev s. exists [ev]. split; [done | by constructor]. Qed.

Lemma emits_bind {A B} (m : M A) (k : A -> M B) :
  emits P m -> (forall a, emits P (k a)) -> emits P (bind m k).
Proof.
  intros Hm Hk s. unfold bind. destruct (Hm s) as (out & Hlog & Hout).
  destruct (m s) as [[a | e |] s']; simpl in *; eauto.
  destruct (Hk a s') as (out' & Hlog' & Hout').
  exists (out ++ out'). rewrite Hlog', Hlog, app_assoc.
  split; [done | by apply Forall_app].
Qed.

Lemma emits_try_except {A} (body : M A) catches handler :
  emits P body -> (forall e, emits P (handler e)) ->
  emits P (try_except body catches handler).
Proof.
  intros Hbody Hhandler s. unfold try_except.
  destruct (Hbody s) as (out & Hlog & Hout).
  destruct (body s) as [[a | e |] s']; simpl in *; eauto.
  destruct (catches e); simpl; eauto.
  destruct (Hhandler e s') as (out' & Hlog' & Hout').
  exists (out ++ out'). rewrite Hlog', Hlog, app_assoc.
  split; [done | by apply Forall_app].
Qed.

Lemma emits_try_finally {A} (body : M A) (fin : M unit) :
  emits P body -> emits P fin -> emits P (try_finally body fin).
Proof.
  intros Hbody Hfin s. unfold try_finally.
  destruct (Hbody s) as (out & Hlog & Hout).
  destruct (body s) as [[a | e |] s']; simpl in *; eauto.
  all: destruct (Hfin s') as (out' & Hlog' & Hout').
  all: exists (out ++ out'); rewrite app_assoc, <- Hlog.
  all: split; [| by apply Forall_app].
  all: by destruct (fin s') as [[[] | e' |] s''].
Qed.

Lemma emits_call {A} ev (r : answer A) : P ev -> emits P (call ev r).
Proof.
  intros Hev. apply emits_bind; [by apply emits_emit |].
  intros _. destruct r; [apply emits_ret | apply emits_raise].
Qed.

Lemma emits_print text : P (Print (text +:+ NL)) -> emits P (print text).
Proof. apply emits_emit. Qed.

Lemma emits_get_channel i : P (GetChannel i) -> emits P (get_channel i).
Proof.
  intros Hev s. exists [GetChannel i]. split; [| by constructor].
  unfold get_channel, bind, emit; simpl.
  destruct (channels s) as [chs |]; [| done]. by destruct (chs !! i).
Qed.

Lemma emits_setattr ch attr v r :
  P (SetAttr ch attr v) -> emits P (setattr ch attr v r).
Proof.
  intros Hev. apply emits_bind; [by apply emits_emit |]. intros _.
  destruct r; [| apply emits_raise].
  intros s. exists []. split; [simpl; by rewrite app_nil_r | constructor].
Qed.

End Emits.

Create HintDb emits.
#[local] Hint Resolve emits_ret emits_raise emits_wait emits_emit emits_bind
  emits_try_except emits_try_finally emits_call emits_print
  emits_get_channel emits_setattr : emits.
#[local] Hint Extern 1 (quiet _) => by split : emits.
#[local] Hint Extern 1 (not_close _) => reflexivity : emits.
#[local] Hint Extern 1 (send_ok _) => exact I : emits.

(** The steps of [main] before the loop. *)
Ltac emits_startup :=
  unfold startup, connect, configure, provision, banner, local_node, sys_exit;
  repeat first
    [ progress intros
    | solve [auto with emits]
    | match goal with
      | |- emits _ (if ?b then _ else _) => destruct b
      | |- emits _ (bind _ _) => apply emits_bind
      | |- emits _ (try_except _ _ _) => apply emits_try_except
      end ].

Lemma startup_quiet w : emits quiet (startup w).
Proof. emits_startup. Qed.

Lemma startup_send_ok w : emits send_ok (startup w).
Proof. emits_startup. Qed.

(** ** The send loop and the session *)

Lemma send_loop_send_ok ts : emits send_ok (send_loop ts).
Proof.
  induction ts as [| t ts IH]; simpl; [auto with emits |].
  apply emits_bind; [auto with emits |]. intros msg.
  destruct (String.eqb_spec msg "") as [-> | Hmsg]; simpl; [done |].
  apply emits_bind; [by apply emits_call |]. intros _.
  apply emits_bind; [auto with emits | done].
Qed.

Lemma send_loop_not_close ts : emits not_close (send_loop ts).
Proof.
  induction ts as [| t ts IH]; simpl; [auto with emits |].
  apply emits_bind; [auto with emits |]. intros msg.
  destruct (negb (String.eqb msg "")); [| done].
  apply emits_bind; [auto with emits |]. intros _.
  apply emits_bind; [auto with emits | done].
Qed.

(** The loop has no exit of its own: it ends by an exception or not at all. *)
Lemma send_loop_never_returns ts s a : fst (send_loop ts s) <> Normal a.
Proof.
  revert s. induction ts as [| t ts IH]; intros s; simpl; [done |].
  unfold bind, call, emit; simpl.
  destruct (line t) as [msg | e]; simpl; [| done].
  destruct (negb (String.eqb msg "")); [| apply IH].
  destruct (sent t); simpl; [| done].
  destruct (paused t); simpl; [apply IH | done].
Qed.

(** The first thing the loop does is to call [input] with the prompt. *)
Lemma send_loop_starts ts s :
  exists out,
    log (snd (send_loop ts s)) = log s ++ Input "Ch1> " :: out /\
    Forall not_close out.
Proof.
  destruct ts as [| t ts]; [by exists [] |].
  set (rest :=
    bind (match line t with Returns a => ret a | Fails e => raise e end)
      (fun msg =>
         if negb (String.eqb msg "") then
           call (SendText msg 1) (sent t) >>
           call (AsyncSleep 100) (paused t) >> send_loop ts
         else send_loop ts)).
  assert (Hrest : emits not_close rest).
  { apply emits_bind; [destruct (line t); auto with emits |]. intros msg.
    destruct (negb (String.eqb msg "")); [| apply send_loop_not_close].
    apply emits_bind; [auto with emits |]. intros _.
    apply emits_bind; [auto with emits |]. intros _. apply send_loop_not_close. }
  destruct (Hrest (logged s [Input "Ch1> "])) as (out & Hlog & Hout).
  exists out. split; [| done].
  change (send_loop (t :: ts) s) with (rest (logged s [Input "Ch1> "])).
  rewrite Hlog. simpl. by rewrite <- app_assoc.
Qed.

(** How the last [try] of [main] ends, from any state: either the program
    is left waiting for input, or [close()] has been called, once and as
    the last call, and the process exits with status 0 unless [close()]
    itself raised. *)
Lemma session_ends w s :
  exists out,
    Forall not_close out /\
    ((fst (session w s) = Waiting /\
      log (snd (session w s)) = log s ++ Input "Ch1> " :: out) \/
     (fst (session w s) =
        match closed w with
        | Returns _ => Raised (SystemExit 0)
        | Fails e => Raised e
        end /\
      log (snd (session w s)) = log s ++ Input "Ch1> " :: out ++ [Close])).
Proof.
  destruct (send_loop_starts (turns w) s) as (out & Hlog & Hout).
  pose proof (send_loop_never_returns (turns w) s) as Hnever.
  unfold session, try_finally, try_except.
  destruct (send_loop (turns w) s) as [[a | e |] s']; simpl in *.
  - by destruct (Hnever a).
  - destruct (is_KeyboardInterrupt e).
    + exists (out ++ [Print ((NL +:+ "Exiting...") +:+ NL)]). split.
      { apply Forall_app. split; [done | by repeat constructor]. }
      right. unfold print, call, bind, emit, sys_exit, raise.
      destruct (closed w); simpl; rewrite Hlog; (split; [done |]);
        by rewrite <- !app_assoc.
    + exists out. split; [done |].
      right. unfold call, bind, emit, sys_exit, raise.
      destruct (closed w); simpl; rewrite Hlog; (split; [done |]);
        by rewrite <- !app_assoc.
  - exists out. split; [done |]. by left.
Qed.

(** ** Counting the calls of [close()] *)

Lemma count_close_app l l' : count_close (l ++ l') = count_close l + count_close l'.
Proof. unfold count_close. by rewrite List.filter_app, length_app. Qed.

Lemma count_close_not_close l : Forall not_close l -> count_close l = 0.
Proof.
  induction 1 as [| ev l Hev _ IH]; [done |].
  unfold count_close in *. simpl. unfold not_close in Hev. by rewrite Hev.
Qed.

Lemma quiet_not_close ev : quiet ev -> not_close ev.
Proof. by intros [_ ?]. Qed.

Lemma entered_loop_quiet l : Forall quiet l -> entered_loop l = false.
Proof.
  induction 1 as [| ev l [Hev _] _ IH]; [done |].
  unfold entered_loop in *. simpl. by rewrite Hev, IH.
Qed.

(** ** [main] *)

Lemma main_run w s :
  main w s =
    match startup w s with
    | (Normal _, s') => session w s'
    | (Raised e, s') => (Raised e, s')
    | (Waiting, s') => (Waiting, s')
    end.
Proof. reflexivity. Qed.

Lemma startup_usage w s :
  (length (argv w) < 2)%nat ->
  startup w s =
    (Raised (SystemExit 1),
     logged s [Print ("Usage: python simcccc.py <SERIAL_PORT>" +:+ NL)]).
Proof.
  intros Hargv. unfold startup.
  destruct (Nat.ltb_spec (length (argv w)) 2) as [_ | Hge]; [done | lia].
Qed.

Lemma startup_connect_fails w s :
  (2 <= length (argv w))%nat -> connect_fails w ->
  fst (startup w s) = Raised (SystemExit 1).
Proof.
  intros Hargv (cls & msg & [Hopened | [Hopened Hsettled]]); unfold startup.
  all: destruct (Nat.ltb_spec (length (argv w)) 2) as [Hlt | _]; [lia |].
  all: unfold connect, try_except, bind, call, print, emit, ret, raise, sys_exit.
  all: simpl; rewrite Hopened; simpl; by rewrite ?Hsettled.
Qed.

Lemma startup_connected w s :
  (2 <= length (argv w))%nat -> opened w = Returns tt -> settled w = Returns tt ->
  startup w s = (configure w >> banner) (logged s (connected_log w)).
Proof.
  intros Hargv Hopened Hsettled. unfold startup.
  destruct (Nat.ltb_spec (length (argv w)) 2) as [Hlt | _]; [lia |].
  unfold connect, try_except, bind, call, print, emit, ret, raise, sys_exit.
  simpl. rewrite Hopened; simpl. rewrite Hsettled; simpl.
  by rewrite !logged_logged.
Qed.

Lemma banner_run s : banner s = (Normal tt, logged s banner_log).
Proof. unfold banner, print, bind, emit. by rewrite !logged_logged. Qed.

Lemma configure_caught w s cls msg s' :
  provision w s = (Raised (Exception cls msg), s') ->
  configure w s =
    (Normal tt, logged s' [Print ("Error configuring Channel 1: " +:+ msg +:+ NL)]).
Proof.
  intros Hprovision. unfold configure, try_except. rewrite Hprovision. simpl.
  unfold print, emit. by rewrite append_assoc.
Qed.

(** A run either ends before the loop, having called neither [input] nor
    [close()], or goes through the session. *)
Lemma run_cases w :
  (entered_loop (log (snd (run w))) = false /\
   count_close (log (snd (run w))) = 0 /\
   fst (run w) = fst (startup w (boot w)) /\
   forall a, fst (run w) <> Normal a) \/
  (exists s' out,
     startup w (boot w) = (Normal tt, s') /\
     Forall quiet (log s') /\ Forall not_close out /\
     ((fst (run w) = Waiting /\
       log (snd (run w)) = log s' ++ Input "Ch1> " :: out) \/
      (fst (run w) =
         match closed w with
         | Returns _ => Raised (SystemExit 0)
         | Fails e => Raised e
         end /\
       log (snd (run w)) = log s' ++ Input "Ch1> " :: out ++ [Close]))).
Proof.
  unfold run. rewrite main_run.
  destruct (startup_quiet w (boot w)) as (out0 & Hlog0 & Hquiet).
  simpl in Hlog0. subst out0.
  destruct (startup w (boot w)) as [[[] | e |] s'] eqn:Hstartup; simpl in *.
  - right. destruct (session_ends w s') as (out & Hout & Hends).
    by exists s', out.
  - left. rewrite entered_loop_quiet by done.
    rewrite count_close_not_close by (eapply Forall_impl; eauto using quiet_not_close).
    done.
  - left. rewrite entered_loop_quiet by done.
    rewrite count_close_not_close by (eapply Forall_impl; eauto using quiet_not_close).
    done.
Qed.

(** C1, as the code has it.  A run that gets to the send loop and ends
    calls [close()] exactly once, as its last call, however the loop
    ended.  A run that ends on a missing port argument or on a failure
    to open the connection exits with status 1 and never calls
    [close()]. *)
Theorem close_once_after_loop (w : env) :
  (entered_loop (log (snd (run w))) = true -> fst (run w) <> Waiting ->
   count_close (log (snd (run w))) = 1 /\
   last (log (snd (run w))) = Some Close) /\
  ((length (argv w) < 2)%nat \/ connect_fails w ->
   fst (run w) = Raised (SystemExit 1) /\
   count_close (log (snd (run w))) = 0).
Proof.
  split.
  - intros Hentered Hended.
    destruct (run_cases w) as
      [(Hnot & _) | (s' & out & _ & Hquiet & Hout & [[Hwait _] | [_ Hlog]])].
    + congruence.
    + done.
    + rewrite Hlog. split.
      * change (Input "Ch1> " :: out ++ [Close])
          with ((Input "Ch1> " :: out) ++ [Close]).
        rewrite !count_close_app.
        rewrite (count_close_not_close (log s'))
          by (eapply Forall_impl; eauto using quiet_not_close).
        by rewrite (count_close_not_close (Input "Ch1> " :: out))
          by (by constructor).
      * change (Input "Ch1> " :: out ++ [Close])
          with ((Input "Ch1> " :: out) ++ [Close]).
        by rewrite app_assoc, last_snoc.
  - intros Hearly.
    assert (Hstartup : fst (startup w (boot w)) = Raised (SystemExit 1)).
    { destruct (Nat.ltb_spec (length (argv w)) 2) as [Hlt | Hge].
      - by rewrite startup_usage.
      - destruct Hearly as [Hlt | Hfails]; [lia |].
        by apply startup_connect_fails. }
    destruct (run_cases w) as [(_ & Hcount & Hrun & _) | (s' & out & Hnormal & _)].
    + split; [congruence | done].
    + rewrite Hnormal in Hstartup. discriminate.
Qed.

Lemma close_once_after_loop_witness :
  (entered_loop (log (snd (run chat_env))) = true /\
   fst (run chat_env) <> Waiting /\
   count_close (log (snd (run chat_env))) = 1 /\
   last (log (snd (run chat_env))) = Some Close) /\
  (connect_fails open_failure_env /\
   fst (run open_failure_env) = Raised (SystemExit 1) /\
   count_close (log (snd (run open_failure_env))) = 0).
Proof.
  split.
  - assert (Hentered : entered_loop (log (snd (run chat_env))) = true)
      by (vm_compute; reflexivity).
    assert (Hended : fst (run chat_env) <> Waiting)
      by (vm_compute; discriminate).
    split; [exact Hentered |]. split; [exact Hended |].
    exact (proj1 (close_once_after_loop chat_env) Hentered Hended).
  - assert (Hfails : connect_fails open_failure_env)
      by (exists "SerialException", "could not open port COM3"; left; reflexivity).
    split; [exact Hfails |].
    exact (proj2 (close_once_after_loop open_failure_env) (or_intror Hfails)).
Defined.

(** C1, as the claim states it, fails: when the port cannot be opened the
    process exits with status 1 and [close()] has not been called. *)
Lemma close_not_called_on_open_failure :
  exit_status (fst (run open_failure_env)) = Some 1%Z /\
  count_close (log (snd (run open_failure_env))) <> 1.
Proof. split; [reflexivity | vm_compute; discriminate]. Qed.

(** C4.  Without a port argument the program prints the usage line and
    exits with status 1; when the connection cannot be opened it exits
    with status 1; and a run that went through the send loop and has
    ended, [close()] having returned, exits with status 0, whether the
    loop was interrupted or ended by another exception. *)
Theorem exit_statuses (w : env) :
  ((length (argv w) < 2)%nat ->
   exit_status (fst (run w)) = Some 1%Z /\
   log (snd (run w)) = [Print ("Usage: python simcccc.py <SERIAL_PORT>" +:+ NL)]) /\
  ((2 <= length (argv w))%nat -> connect_fails w ->
   exit_status (fst (run w)) = Some 1%Z) /\
  (entered_loop (log (snd (run w))) = true -> fst (run w) <> Waiting ->
   closed w = Returns tt ->
   exit_status (fst (run w)) = Some 0%Z).
Proof.
  split; [| split].
  - intros Hargv. unfold run.
    by rewrite main_run, startup_usage.
  - intros Hargv Hfails.
    pose proof (startup_connect_fails w (boot w) Hargv Hfails) as Hstartup.
    destruct (run_cases w) as [(_ & _ & Hrun & _) | (s' & out & Hnormal & _)].
    + by rewrite Hrun, Hstartup.
    + rewrite Hnormal in Hstartup. discriminate.
  - intros Hentered Hended Hclosed.
    destruct (run_cases w) as
      [(Hnot & _) | (s' & out & _ & _ & _ & [[Hwait _] | [Hrun _]])].
    + congruence.
    + done.
    + rewrite Hrun, Hclosed. reflexivity.
Qed.

Lemma exit_statuses_witness :
  ((length (argv no_port_env) < 2)%nat /\
   exit_status (fst (run no_port_env)) = Some 1%Z) /\
  ((2 <= length (argv open_failure_env))%nat /\
   connect_fails open_failure_env /\
   exit_status (fst (run open_failure_env)) = Some 1%Z) /\
  (entered_loop (log (snd (run chat_env))) = true /\
   fst (run chat_env) <> Waiting /\
   closed chat_env = Returns tt /\
   exit_status (fst (run chat_env)) = Some 0%Z).
Proof.
  split; [| split].
  - assert (Hargv : (length (argv no_port_env) < 2)%nat) by (simpl; lia).
    split; [exact Hargv |].
    exact (proj1 (proj1 (exit_statuses no_port_env) Hargv)).
  - assert (Hargv : (2 <= length (argv open_failure_env))%nat) by (simpl; lia).
    assert (Hfails : connect_fails open_failure_env)
      by (exists "SerialException", "could not open port COM3"; left; reflexivity).
    split; [exact Hargv |]. split; [exact Hfails |].
    exact (proj1 (proj2 (exit_statuses open_failure_env)) Hargv Hfails).
  - assert (Hentered : entered_loop (log (snd (run chat_env))) = true)
      by (vm_compute; reflexivity).
    assert (Hended : fst (run chat_env) <> Waiting)
      by (vm_compute; discriminate).
    split; [exact Hentered |]. split; [exact Hended |].
    split; [reflexivity |].
    exact (proj2 (proj2 (exit_statuses chat_env)) Hentered Hended eq_refl).
Defined.

(** Every send of a run carries a text that is not empty, on channel 1. *)
Lemma run_send_ok w : Forall send_ok (log (snd (run w))).
Proof.
  assert (Hmain : emits send_ok (main w)).
  { apply emits_bind; [apply startup_send_ok |]. intros _.
    unfold session. apply emits_try_finally.
    - apply emits_try_except; [apply send_loop_send_ok | auto with emits].
    - unfold sys_exit. auto with emits. }
  destruct (Hmain (boot w)) as (out & Hlog & Hout).
  unfold run. by rewrite Hlog.
Qed.

(** C5.  On an empty line the loop sends nothing: all it has done when it
    asks for the next line is the call of [input].  And no run ever sends
    an empty text: a [sendText] call is made for a line that is not empty
    only, on channel 1. *)
Theorem empty_line_is_not_sent (t : turn) (ts : list turn) (s : state) :
  line t = Returns "" ->
  send_loop (t :: ts) s = send_loop ts (logged s [Input "Ch1> "]) /\
  forall (w : env) (text : string) (channelIndex : nat),
    In (SendText text channelIndex) (log (snd (run w))) ->
    text <> "" /\ channelIndex = 1.
Proof.
  intros Hline. split.
  - simpl. unfold bind, call, emit. rewrite Hline. reflexivity.
  - intros w text channelIndex Hin.
    pose proof (run_send_ok w) as Hok.
    rewrite Forall_forall in Hok. apply list_elem_of_In in Hin.
    exact (Hok _ Hin).
Qed.

Lemma empty_line_is_not_sent_witness :
  line (mkTurn (Returns "") ok ok) = Returns "" /\
  send_loop [mkTurn (Returns "") ok ok; mkTurn (Fails KeyboardInterrupt) ok ok]
    (mkState [] None) =
    (Raised KeyboardInterrupt, mkState [Input "Ch1> "; Input "Ch1> "] None).
Proof.
  split; [reflexivity |].
  exact (eq_trans
           (proj1 (empty_line_is_not_sent (mkTurn (Returns "") ok ok)
                     [mkTurn (Fails KeyboardInterrupt) ok ok]
                     (mkState [] None) eq_refl))
           eq_refl).
Defined.

(** ** Provisioning *)

Lemma alter_alter {A} (f g : A -> A) (i : nat) (l : list A) :
  alter f i (alter g i l) = alter (fun x => f (g x)) i l.
Proof.
  revert i. induction l as [| x l IH]; intros [| i]; simpl; try done.
  f_equal. apply IH.
Qed.

(** What the provisioning does, step by step, from any state. *)
Lemma provision_run w s :
  provision w s =
    match channels s with
    | None =>
        (Raised (Exception "TypeError" "'NoneType' object is not subscriptable"),
         logged s (take 3 provision_steps))
    | Some chs =>
        match chs !! 1 with
        | None =>
            (Raised (Exception "IndexError" "list index out of range"),
             logged s (take 3 provision_steps))
        | Some _ =>
            match name_set w with
            | Fails e =>
                (Raised e, mkState (log s ++ take 4 provision_steps) (Some chs))
            | Returns _ =>
            match psk_set w with
            | Fails e =>
                (Raised e,
                 mkState (log s ++ take 5 provision_steps)
                   (Some (alter (assigned 1) 1 chs)))
            | Returns _ =>
            match preset_set w with
            | Fails e =>
                (Raised e,
                 mkState (log s ++ take 6 provision_steps)
                   (Some (alter (assigned 2) 1 chs)))
            | Returns _ =>
            match channel_written w with
            | Fails e =>
                (Raised e,
                 mkState (log s ++ take 7 provision_steps)
                   (Some (alter provisioned 1 chs)))
            | Returns _ =>
            match config_written w with
            | Fails e =>
                (Raised e,
                 mkState (log s ++ take 8 provision_steps)
                   (Some (alter provisioned 1 chs)))
            | Returns _ =>
                (Normal tt,
                 mkState (log s ++ provision_steps)
                   (Some (alter provisioned 1 chs)))
            end end end end end
        end
    end.
Proof.
  unfold provision, local_node, get_channel, setattr, call, print, bind, emit,
    ret, raise, logged; simpl.
  destruct (channels s) as [chs |] eqn:Hchs; simpl.
  2: { by rewrite <- !app_assoc. }
  destruct (chs !! 1) as [c |] eqn:Hc; simpl.
  2: { by rewrite <- !app_assoc. }
  destruct (name_set w) as [[] | e]; simpl;
    [| by rewrite ?Hchs, <- !app_assoc].
  destruct (psk_set w) as [[] | e]; simpl;
    [| by rewrite ?Hchs, <- !app_assoc].
  destruct (preset_set w) as [[] | e]; simpl;
    [| by rewrite ?Hchs, ?alter_alter, <- !app_assoc].
  rewrite ?Hchs, !alter_alter.
  change (fun x : pyobj =>
            <["usePreset":=PyBool false]>
              (<["psk":=PyStr CUSTOM_CHANNEL_PSK]>
                 (<["name":=PyStr CUSTOM_CHANNEL_NAME]> x)))
    with provisioned.
  destruct (channel_written w) as [[] | e]; simpl; [| by rewrite <- !app_assoc].
  destruct (config_written w) as [[] | e]; simpl; by rewrite <- !app_assoc.
Qed.

(** The provisioning logs the steps it gets through, and returns when it
    gets through all nine. *)
Lemma provision_steps_done w s :
  log (snd (provision w s)) = log s ++ take (steps_done w s) provision_steps /\
  (fst (provision w s) = Normal tt <-> steps_done w s = 9).
Proof.
  rewrite provision_run. unfold steps_done.
  destruct (channels s) as [chs |]; [| by split].
  destruct (chs !! 1) as [c |]; [| by split].
  destruct (name_set w) as [[] | e1]; [| by split].
  destruct (psk_set w) as [[] | e2]; [| by split].
  destruct (preset_set w) as [[] | e3]; [| by split].
  destruct (channel_written w) as [[] | e4]; [| by split].
  destruct (config_written w) as [[] | e5]; by split.
Qed.

(** A provisioning returns only if slot 1 is there, the channel object
    accepts the three assignments and both writes return. *)
Lemma provision_returns w s :
  fst (provision w s) = Normal tt ->
  exists chs,
    channels s = Some chs /\ is_Some (chs !! 1) /\ assignments_accepted w /\
    channel_written w = Returns tt /\ config_written w = Returns tt.
Proof.
  rewrite provision_run. unfold assignments_accepted.
  destruct (channels s) as [chs |]; [| done].
  destruct (chs !! 1) as [c |] eqn:Hc; [| done].
  destruct (name_set w) as [[] | e1]; [| done].
  destruct (psk_set w) as [[] | e2]; [| done].
  destruct (preset_set w) as [[] | e3]; [| done].
  destruct (channel_written w) as [[] | e4]; [| done].
  destruct (config_written w) as [[] | e5]; [| done].
  intros _. exists chs. by repeat split.
Qed.

(** Once the three assignments are accepted, slot 1 is provisioned,
    whatever becomes of the two writes. *)
Lemma provision_assigned w s chs :
  channels s = Some chs -> is_Some (chs !! 1) -> assignments_accepted w ->
  channels (snd (provision w s)) = Some (alter provisioned 1 chs).
Proof.
  intros Hchs [c Hc] (Hname & Hpsk & Hpreset).
  rewrite provision_run, Hchs, Hc, Hname, Hpsk, Hpreset.
  destruct (channel_written w) as [[] | e]; [| done].
  by destruct (config_written w) as [[] | e].
Qed.

(** The handler of the second [try] only prints. *)
Lemma configure_channels w s :
  channels (snd (configure w s)) = channels (snd (provision w s)).
Proof.
  unfold configure, try_except.
  destruct (provision w s) as [[[] | e |] s']; simpl; try done.
  by destruct (is_Exception e).
Qed.

Lemma provisioned_lookup (c : pyobj) :
  provisioned c !! "name" = Some (PyStr "DC540") /\
  provisioned c !! "psk" = Some (PyStr CUSTOM_CHANNEL_PSK) /\
  provisioned c !! "usePreset" = Some (PyBool false) /\
  (forall attr, attr <> "name" -> attr <> "psk" -> attr <> "usePreset" ->
                provisioned c !! attr = c !! attr).
Proof.
  unfold provisioned. repeat split.
  - by rewrite lookup_insert_ne, lookup_insert_ne, lookup_insert_eq.
  - by rewrite lookup_insert_ne, lookup_insert_eq.
  - by rewrite lookup_insert_eq.
  - intros attr Hname Hpsk Hpreset. by rewrite !lookup_insert_ne.
Qed.

(** C7.  The provisioning performs its steps in the order of
    [provision_steps]: the local node, its channel slot 1, the name, the
    preshared key and the preset flag of that slot, the write of the
    channel, the write of the configuration.  It always gets to the
    lookup of the slot, it logs exactly the steps up to the one that
    raises, and it goes through all of them and returns when slot 1 is
    there and every step succeeds. *)
Theorem provision_order (w : env) (s : state) :
  log (snd (provision w s)) = log s ++ take (steps_done w s) provision_steps /\
  3 <= steps_done w s <= 9 /\
  (fst (provision w s) = Normal tt <-> steps_done w s = 9) /\
  (forall chs,
     channels s = Some chs -> is_Some (chs !! 1) -> assignments_accepted w ->
     channel_written w = Returns tt -> config_written w = Returns tt ->
     provision w s =
       (Normal tt,
        mkState (log s ++ provision_steps) (Some (alter provisioned 1 chs)))).
Proof.
  destruct (provision_steps_done w s) as [Hlog Hnormal].
  split; [exact Hlog |]. split; [| split; [exact Hnormal |]].
  - unfold steps_done.
    destruct (channels s) as [chs |]; [| lia].
    destruct (chs !! 1); [| lia].
    destruct (name_set w); [| lia]. destruct (psk_set w); [| lia].
    destruct (preset_set w); [| lia]. destruct (channel_written w); [| lia].
    destruct (config_written w); lia.
  - intros chs Hchs [c Hc] (Hname & Hpsk & Hpreset) Hchannel Hconfig.
    by rewrite provision_run, Hchs, Hc, Hname, Hpsk, Hpreset, Hchannel, Hconfig.
Qed.

Lemma provision_order_witness :
  steps_done chat_env (boot chat_env) = 9 /\
  provision chat_env (boot chat_env) =
    (Normal tt, mkState provision_steps (Some [∅; provisioned ∅])).
Proof.
  split; [reflexivity |].
  exact (proj2 (proj2 (proj2 (provision_order chat_env (boot chat_env))))
           [∅; ∅] eq_refl (ex_intro _ ∅ eq_refl)
           (conj eq_refl (conj eq_refl eq_refl)) eq_refl eq_refl).
Defined.

(** C9.  After a provisioning that succeeds, and already when slot 1 is
    there and the channel object accepts the three assignments, the slot
    read back holds the name "DC540", the key constant and a preset flag
    that is false; its other attributes and the other slots are as
    before. *)
Theorem provision_round_trip (w : env) (s : state) :
  fst (provision w s) = Normal tt \/
  (exists chs,
     channels s = Some chs /\ is_Some (chs !! 1) /\ assignments_accepted w) ->
  exists (chs chs' : list pyobj) (c c' : pyobj),
    channels s = Some chs /\ chs !! 1 = Some c /\
    channels (snd (configure w s)) = Some chs' /\
    chs' !! 1 = Some c' /\
    c' !! "name" = Some (PyStr "DC540") /\
    c' !! "psk" = Some (PyStr CUSTOM_CHANNEL_PSK) /\
    c' !! "usePreset" = Some (PyBool false) /\
    (forall attr, attr <> "name" -> attr <> "psk" -> attr <> "usePreset" ->
                  c' !! attr = c !! attr) /\
    (forall i, i <> 1 -> chs' !! i = chs !! i).
Proof.
  intros Hdone.
  assert (Hslot : exists chs,
    channels s = Some chs /\ is_Some (chs !! 1) /\ assignments_accepted w).
  { destruct Hdone as [Hnormal | Hslot]; [| done].
    destruct (provision_returns w s Hnormal) as (chs & Hchs & Hc & Hset & _).
    by exists chs. }
  destruct Hslot as (chs & Hchs & [c Hc] & Hset).
  exists chs, (alter provisioned 1 chs), c, (provisioned c).
  split; [done |]. split; [done |].
  split.
  { rewrite configure_channels. apply provision_assigned; [done | by eexists | done]. }
  split; [by rewrite list_lookup_alter_eq, Hc |].
  destruct (provisioned_lookup c) as (Hname & Hpsk & Hpreset & Hother).
  repeat split; try done.
  intros i Hi. by rewrite list_lookup_alter_ne.
Qed.

Lemma provision_round_trip_witness :
  fst (provision chat_env (boot chat_env)) = Normal tt /\
  exists (chs chs' : list pyobj) (c c' : pyobj),
    channels (boot chat_env) = Some chs /\ chs !! 1 = Some c /\
    channels (snd (configure chat_env (boot chat_env))) = Some chs' /\
    chs' !! 1 = Some c' /\
    c' !! "name" = Some (PyStr "DC540") /\
    c' !! "psk" = Some (PyStr CUSTOM_CHANNEL_PSK) /\
    c' !! "usePreset" = Some (PyBool false) /\
    (forall attr, attr <> "name" -> attr <> "psk" -> attr <> "usePreset" ->
                  c' !! attr = c !! attr) /\
    (forall i, i <> 1 -> chs' !! i = chs !! i).
Proof.
  split; [reflexivity |].
  exact (provision_round_trip chat_env (boot chat_env) (or_introl eq_refl)).
Defined.

(** C8.  The key constant is the base64 text of exactly 32 bytes, a
    256-bit key.  And a provisioning that sets the key, slot 1 being there
    and the name and the key being accepted, goes on at once to assign
    [False] to the preset flag of the slot: that assignment is its next
    step, and once it is accepted the slot holds the key and a preset
    flag that is false. *)
Theorem psk_is_256_bits_and_preset_is_off :
  (exists key : list Z,
     b64decode CUSTOM_CHANNEL_PSK = Some key /\
     length key = 32 /\
     Forall (fun b => (0 <= b < 256)%Z) key) /\
  (forall (w : env) (s : state) (chs : list pyobj),
     channels s = Some chs -> is_Some (chs !! 1) ->
     name_set w = Returns tt -> psk_set w = Returns tt ->
     (exists rest,
        log (snd (provision w s)) =
          log s ++ take 4 provision_steps ++
          SetAttr 1 "psk" (PyStr CUSTOM_CHANNEL_PSK) ::
          SetAttr 1 "usePreset" (PyBool false) :: rest) /\
     (preset_set w = Returns tt ->
      exists (chs' : list pyobj) (c' : pyobj),
        channels (snd (provision w s)) = Some chs' /\
        chs' !! 1 = Some c' /\
        c' !! "psk" = Some (PyStr CUSTOM_CHANNEL_PSK) /\
        c' !! "usePreset" = Some (PyBool false))).
Proof.
  split.
  - eexists. split; [vm_compute; reflexivity |]. split; [reflexivity |].
    repeat (constructor; [lia |]). constructor.
  - intros w s chs Hchs [c Hc] Hname Hpsk. split.
    + rewrite provision_run, Hchs, Hc, Hname, Hpsk.
      destruct (preset_set w) as [[] | e3]; [| by eexists].
      destruct (channel_written w) as [[] | e4]; [| by eexists].
      destruct (config_written w) as [[] | e5]; by eexists.
    + intros Hpreset. exists (alter provisioned 1 chs), (provisioned c).
      split; [apply provision_assigned; [done | by eexists | done] |].
      split; [by rewrite list_lookup_alter_eq, Hc |].
      destruct (provisioned_lookup c) as (_ & Hkey & Hflag & _). done.
Qed.

Lemma psk_is_256_bits_and_preset_is_off_witness :
  exists (chs' : list pyobj) (c' : pyobj),
    channels (snd (provision chat_env (boot chat_env))) = Some chs' /\
    chs' !! 1 = Some c' /\
    c' !! "psk" = Some (PyStr CUSTOM_CHANNEL_PSK) /\
    c' !! "usePreset" = Some (PyBool false).
Proof.
  exact (proj2 (proj2 psk_is_256_bits_and_preset_is_off chat_env (boot chat_env)
                  [∅; ∅] eq_refl (ex_intro _ ∅ eq_refl) eq_refl eq_refl)
           eq_refl).
Defined.

(** C3.  When the connection is up and a step of the provisioning raises
    an [Exception], the exception is caught, the line "Error configuring
    Channel 1: <message>" is printed, the banner follows, and the run goes
    on with the session: the next thing the program does is to ask for the
    first line of input. *)
Theorem configuration_failure_is_not_fatal (w : env) (cls msg : string)
    (s' : state) :
  (2 <= length (argv w))%nat ->
  opened w = Returns tt -> settled w = Returns tt ->
  provision w (logged (boot w) (connected_log w)) =
    (Raised (Exception cls msg), s') ->
  run w = session w (logged s' (reported_log msg)) /\
  exists out,
    log (snd (run w)) = log s' ++ reported_log msg ++ Input "Ch1> " :: out.
Proof.
  intros Hargv Hopened Hsettled Hprovision.
  assert (Hrun : run w = session w (logged s' (reported_log msg))).
  { unfold run. rewrite main_run.
    rewrite (startup_connected w _ Hargv Hopened Hsettled).
    unfold bind at 1. rewrite (configure_caught _ _ _ _ _ Hprovision).
    rewrite banner_run, logged_logged. reflexivity. }
  split; [exact Hrun |]. rewrite Hrun.
  destruct (session_ends w (logged s' (reported_log msg)))
    as (out & _ & [[_ Hlog] | [_ Hlog]]); rewrite Hlog; simpl.
  - exists out. by rewrite <- app_assoc.
  - exists (out ++ [Close]). by rewrite <- app_assoc.
Qed.

Lemma configuration_failure_is_not_fatal_witness :
  ((2 <= length (argv no_channels_env))%nat /\
   opened no_channels_env = Returns tt /\
   settled no_channels_env = Returns tt /\
   fst (provision no_channels_env
          (logged (boot no_channels_env) (connected_log no_channels_env))) =
     Raised (Exception "TypeError" "'NoneType' object is not subscriptable")) /\
  exists out,
    log (snd (run no_channels_env)) =
      log (snd (provision no_channels_env
                  (logged (boot no_channels_env) (connected_log no_channels_env))))
      ++ reported_log "'NoneType' object is not subscriptable"
      ++ Input "Ch1> " :: out.
Proof.
  split.
  - split; [simpl; lia |]. repeat split; reflexivity.
  - exact (proj2 (configuration_failure_is_not_fatal no_channels_env
                    "TypeError" "'NoneType' object is not subscriptable" _
                    (le_n 2) eq_refl eq_refl eq_refl)).
Defined.

(** ** The loop on a line that is not empty, and a whole chat *)

(** A line that is not empty is sent on channel 1, and the loop pauses
    before it asks for the next one. *)
Lemma nonempty_line_is_sent (t : turn) (ts : list turn) (s : state) (msg : string) :
  line t = Returns msg -> msg <> "" ->
  send_loop (t :: ts) s =
    (call (SendText msg 1) (sent t) >>
     call (AsyncSleep 100) (paused t) >>
     send_loop ts) (logged s [Input "Ch1> "]).
Proof.
  intros Hline Hmsg. simpl. unfold bind at 1, call at 1, bind at 1, emit at 1.
  rewrite Hline. unfold ret at 1.
  by destruct (String.eqb_spec msg "").
Qed.

(** The chat on COM3: the port is opened, channel 1 is configured, "hello"
    is sent once on channel 1, the empty line is not sent, and Ctrl+C
    closes the connection and ends the process with status 0. *)
Example chat_run :
  fst (run chat_env) = Raised (SystemExit 0) /\
  log (snd (run chat_env)) =
    connected_log chat_env ++ provision_steps ++ banner_log ++
    [Input "Ch1> "; SendText "hello" 1; AsyncSleep 100;
     Input "Ch1> ";
     Input "Ch1> "; Print ((NL +:+ "Exiting...") +:+ NL);
     Close].
Proof. split; vm_compute; reflexivity. Qed.

(** * Further properties of the code *)

(** ** The receive callback on every packet *)

(** X1.  What the callback leaves on the display is fixed by the text field
    alone, for every packet whatever its shape: the message line and the
    prompt when the packet is a dict whose "decoded" entry is a dict with a
    "text" entry, and nothing at all otherwise, also when the callback
    raises. *)
Theorem onReceive_display (py_str : pyval -> string) {I : Type}
    (interface : I) (packet : pyval) (s : state) :
  snd (onReceive py_str packet interface s) =
    match decoded_text packet with
    | Some text =>
        logged s
          [Print (NL +:+ (py_str (default (PyStr "unknown") (from_id packet))
                          +:+ ": " +:+ py_str text) +:+ NL);
           Print "Ch1> "]
    | None => s
    end.
Proof.
  unfold onReceive.
  destruct (truthy packet) eqn:Htruthy; simpl.
  2: { destruct packet as [| | | | | d]; try done. simpl in *.
       apply negb_false_iff, Nat.eqb_eq, map_size_empty_inv in Htruthy.
       subst d. by rewrite lookup_empty. }
  destruct packet as [| | | | | d]; try done.
  unfold bind, py_get, ret; simpl.
  destruct (d !! "decoded") as [decoded |]; simpl.
  2: { by rewrite lookup_empty. }
  destruct decoded as [| b | z | str | l | dd]; simpl; try done.
  - by destruct (bool_decide _).
  - by destruct (existsb _ l).
  - destruct (dd !! "text") as [text |]; simpl; [| done].
    unfold print, print_noend, emit. rewrite logged_logged.
    by rewrite !append_assoc.
Qed.

(** X2.  On the packets the event bus delivers, no packet or a dict whose
    "decoded" entry, if any, is a dict, the callback never raises. *)
Theorem onReceive_returns (py_str : pyval -> string) {I : Type}
    (interface : I) (packet : pyval) (s : state) :
  packet_shaped packet ->
  fst (onReceive py_str packet interface s) = Normal tt.
Proof.
  intros Hshape. unfold onReceive.
  destruct packet as [| | | | | d]; try done.
  destruct (truthy (PyDict d)); [| done].
  simpl in *. unfold bind, py_get, ret; simpl.
  destruct (d !! "decoded") as [decoded |]; simpl.
  - destruct decoded as [| | | | | dd]; try done. simpl.
    by destruct (dd !! "text").
  - by rewrite lookup_empty.
Qed.

Lemma onReceive_returns_witness :
  packet_shaped text_packet /\
  fst (onReceive str_of_text text_packet tt (mkState [] None)) = Normal tt.
Proof.
  split; [exact I |].
  exact (onReceive_returns str_of_text tt text_packet (mkState [] None) I).
Defined.

(** X3.  A packet that is true and is not a dict has no [get] method: the
    callback raises [AttributeError] and prints nothing. *)
Theorem onReceive_not_a_dict (py_str : pyval -> string) {I : Type}
    (interface : I) (packet : pyval) (s : state) :
  truthy packet = true -> (forall d, packet <> PyDict d) ->
  onReceive py_str packet interface s =
    (Raised (Exception "AttributeError"
               ("'" +:+ type_name packet +:+ "' object has no attribute 'get'")),
     s).
Proof.
  intros Htruthy Hdict. unfold onReceive. rewrite Htruthy. simpl.
  destruct packet as [| | | | | d]; try done.
  by destruct (Hdict d).
Qed.

Lemma onReceive_not_a_dict_witness :
  truthy (PyStr "hi") = true /\
  onReceive str_of_text (PyStr "hi") tt (mkState [] None) =
    (Raised (Exception "AttributeError" "'str' object has no attribute 'get'"),
     mkState [] None).
Proof.
  split; [reflexivity |].
  exact (onReceive_not_a_dict str_of_text tt (PyStr "hi") (mkState [] None)
           eq_refl (fun d H => eq_ind (PyStr "hi")
              (fun v => match v with PyStr _ => True | _ => False end) I _ H)).
Defined.

(** X4.  A "decoded" entry that is [None], a bool or an int is no
    container: the membership test raises [TypeError] and nothing is
    printed. *)
Theorem onReceive_decoded_not_container (py_str : pyval -> string) {I : Type}
    (interface : I) (d : pyobj) (decoded : pyval) (s : state) :
  d !! "decoded" = Some decoded -> not_container decoded ->
  onReceive py_str (PyDict d) interface s =
    (Raised (Exception "TypeError"
               ("argument of type '" +:+ type_name decoded +:+ "' is not iterable")),
     s).
Proof.
  intros Hdecoded Hnot. unfold onReceive.
  rewrite (truthy_dict d "decoded" _ Hdecoded). simpl.
  unfold bind, py_get, ret; simpl. rewrite Hdecoded; simpl.
  by destruct decoded.
Qed.

Lemma onReceive_decoded_not_container_witness :
  (<["decoded" := PyInt 7]> (∅ : pyobj)) !! "decoded" = Some (PyInt 7) /\
  onReceive str_of_text (PyDict (<["decoded" := PyInt 7]> ∅)) tt (mkState [] None) =
    (Raised (Exception "TypeError" "argument of type 'int' is not iterable"),
     mkState [] None).
Proof.
  split; [reflexivity |].
  exact (onReceive_decoded_not_container str_of_text tt
           (<["decoded" := PyInt 7]> ∅) (PyInt 7) (mkState [] None) eq_refl I).
Defined.

(** X5.  A "decoded" entry that is a string containing "text", or a list
    with the element "text", passes the membership test and then fails on
    the subscript: the callback raises [TypeError] and prints nothing. *)
Theorem onReceive_decoded_sequence (py_str : pyval -> string) {I : Type}
    (interface : I) (d : pyobj) (decoded : pyval) (s : state) :
  d !! "decoded" = Some decoded -> sequence_with_text decoded = true ->
  exists msg,
    onReceive py_str (PyDict d) interface s =
      (Raised (Exception "TypeError" msg), s).
Proof.
  intros Hdecoded Hseq. unfold onReceive.
  rewrite (truthy_dict d "decoded" _ Hdecoded). simpl.
  unfold bind, py_get, ret; simpl. rewrite Hdecoded; simpl.
  destruct decoded as [| | | str | l |]; try done; simpl in *; rewrite Hseq; eauto.
Qed.

Lemma onReceive_decoded_sequence_witness :
  (<["decoded" := PyStr "some text"]> (∅ : pyobj)) !! "decoded" =
    Some (PyStr "some text") /\
  sequence_with_text (PyStr "some text") = true /\
  exists msg,
    onReceive str_of_text (PyDict (<["decoded" := PyStr "some text"]> ∅)) tt
      (mkState [] None) =
      (Raised (Exception "TypeError" msg), mkState [] None).
Proof.
  split; [reflexivity |]. split; [reflexivity |].
  exact (onReceive_decoded_sequence str_of_text tt
           (<["decoded" := PyStr "some text"]> ∅) (PyStr "some text")
           (mkState [] None) eq_refl eq_refl).
Defined.

(** ** The send loop, turn by turn *)

Lemma send_loop_ok_turn t ts s :
  turn_raises t = None ->
  send_loop (t :: ts) s = send_loop ts (logged s (turn_events t)).
Proof.
  unfold turn_raises, turn_events. intros Hok. simpl.
  unfold bind, call, emit, ret, raise; simpl.
  destruct (line t) as [msg | e]; [| done]. simpl.
  destruct (negb (String.eqb msg "")); [| done].
  destruct (sent t) as [[] | e]; [| done].
  destruct (paused t) as [[] | e]; [| done].
  unfold logged; simpl. by rewrite <- !app_assoc.
Qed.

Lemma send_loop_failing_turn t ts s e :
  turn_raises t = Some e ->
  send_loop (t :: ts) s = (Raised e, logged s (turn_events t)).
Proof.
  unfold turn_raises, turn_events. intros Hfails. simpl.
  unfold bind, call, emit, ret, raise; simpl.
  destruct (line t) as [msg | e']; [| by inversion Hfails]. simpl.
  destruct (negb (String.eqb msg "")); [| done].
  destruct (sent t) as [[] | e'];
    [| inversion Hfails; unfold logged; simpl; by rewrite <- !app_assoc].
  destruct (paused t) as [[] | e']; [done |].
  inversion Hfails. unfold logged; simpl. by rewrite <- !app_assoc.
Qed.

Lemma send_loop_ok_turns pre ts s :
  Forall (fun t => turn_raises t = None) pre ->
  send_loop (pre ++ ts) s = send_loop ts (logged s (flat_map turn_events pre)).
Proof.
  intros Hpre. revert s.
  induction Hpre as [| t pre Ht _ IH]; intros s; simpl.
  - by rewrite logged_nil.
  - change (send_loop (t :: pre ++ ts) s =
            send_loop ts (logged s (turn_events t ++ flat_map turn_events pre))).
    by rewrite (send_loop_ok_turn _ _ _ Ht), IH, logged_logged.
Qed.

(** X6.  The loop goes on, turn after turn, until a call raises; it ends
    there with that exception, whether it came from [input], from
    [sendText] or from the pause, and what the user would have typed
    next is never read. *)
Theorem send_loop_until_failure (pre : list turn) (t : turn) (rest : list turn)
    (e : exn) (s : state) :
  Forall (fun t => turn_raises t = None) pre -> turn_raises t = Some e ->
  send_loop (pre ++ t :: rest) s =
    (Raised e, logged s (flat_map turn_events pre ++ turn_events t)).
Proof.
  intros Hpre Ht.
  by rewrite (send_loop_ok_turns _ _ _ Hpre),
    (send_loop_failing_turn _ _ _ _ Ht), logged_logged.
Qed.

Lemma send_loop_until_failure_witness :
  Forall (fun t => turn_raises t = None)
    [mkTurn (Returns "hello") ok ok; mkTurn (Returns "") ok ok] /\
  turn_raises (mkTurn (Returns "again") (Fails (Exception "OSError" "port closed")) ok) =
    Some (Exception "OSError" "port closed") /\
  send_loop
    ([mkTurn (Returns "hello") ok ok; mkTurn (Returns "") ok ok] ++
     mkTurn (Returns "again") (Fails (Exception "OSError" "port closed")) ok ::
     [mkTurn (Returns "never read") ok ok])
    (mkState [] None) =
    (Raised (Exception "OSError" "port closed"),
     mkState [Input "Ch1> "; SendText "hello" 1; AsyncSleep 100;
              Input "Ch1> ";
              Input "Ch1> "; SendText "again" 1] None).
Proof.
  assert (Hpre : Forall (fun t => turn_raises t = None)
            [mkTurn (Returns "hello") ok ok; mkTurn (Returns "") ok ok])
    by (repeat constructor).
  split; [exact Hpre |]. split; [reflexivity |].
  exact (send_loop_until_failure _
           (mkTurn (Returns "again") (Fails (Exception "OSError" "port closed")) ok)
           [mkTurn (Returns "never read") ok ok]
           (Exception "OSError" "port closed")
           (mkState [] None) Hpre eq_refl).
Defined.

(** X7.  As long as no call raises the loop does not end: when the turns
    are used up the program is waiting in [input] once more. *)
Theorem send_loop_waits (ts : list turn) (s : state) :
  Forall (fun t => turn_raises t = None) ts ->
  send_loop ts s =
    (Waiting, logged s (flat_map turn_events ts ++ [Input "Ch1> "])).
Proof.
  intros Hts. rewrite <- (app_nil_r ts) at 1.
  rewrite (send_loop_ok_turns _ _ _ Hts). simpl.
  unfold bind, emit, wait. by rewrite logged_logged.
Qed.

Lemma send_loop_waits_witness :
  Forall (fun t => turn_raises t = None) [mkTurn (Returns "hello") ok ok] /\
  send_loop [mkTurn (Returns "hello") ok ok] (mkState [] None) =
    (Waiting,
     mkState [Input "Ch1> "; SendText "hello" 1; AsyncSleep 100; Input "Ch1> "]
       None).
Proof.
  assert (Hts : Forall (fun t => turn_raises t = None)
            [mkTurn (Returns "hello") ok ok])
    by (repeat constructor).
  split; [exact Hts |].
  exact (send_loop_waits _ (mkState [] None) Hts).
Defined.

Lemma sent_texts_app l l' : sent_texts (l ++ l') = sent_texts l ++ sent_texts l'.
Proof. unfold sent_texts. apply omap_app. Qed.

(** The sends of the turns that raise nothing are the lines typed that
    are not empty. *)
Lemma turn_events_sent_texts (ts : list turn) :
  Forall (fun t => turn_raises t = None) ts ->
  sent_texts (flat_map turn_events ts) =
    List.filter (fun msg => negb (String.eqb msg "")) (typed_lines ts).
Proof.
  induction 1 as [| t ts Ht _ IH]; [done |].
  change (flat_map turn_events (t :: ts))
    with (turn_events t ++ flat_map turn_events ts).
  rewrite sent_texts_app, IH. clear IH.
  unfold typed_lines, turn_events, turn_raises in *. simpl.
  destruct (line t) as [msg | e]; [| done]. simpl.
  destruct (negb (String.eqb msg "")); [| done].
  destruct (sent t) as [[] | e]; [| done]. done.
Qed.

(** X8.  While no call raises, the texts that the send loop passes to
    [sendText] are the lines typed, each one once, unchanged and in the
    order typed, the empty lines left out: they are what the loop adds to
    the sends already in the log. *)
Theorem sent_texts_are_typed_lines (ts : list turn) (s : state) :
  Forall (fun t => turn_raises t = None) ts ->
  sent_texts (log (snd (send_loop ts s))) =
    sent_texts (log s) ++
    List.filter (fun msg => negb (String.eqb msg "")) (typed_lines ts).
Proof.
  intros Hts. rewrite (send_loop_waits ts s Hts). simpl.
  rewrite !sent_texts_app, (turn_events_sent_texts ts Hts). simpl.
  by rewrite app_nil_r.
Qed.

Lemma sent_texts_are_typed_lines_witness :
  Forall (fun t => turn_raises t = None)
    [mkTurn (Returns "hello") ok ok; mkTurn (Returns "") ok ok;
     mkTurn (Returns " ") ok ok] /\
  sent_texts
    (log (snd (send_loop
                 [mkTurn (Returns "hello") ok ok; mkTurn (Returns "") ok ok;
                  mkTurn (Returns " ") ok ok]
                 (mkState [] None)))) = ["hello"; " "].
Proof.
  assert (Hts : Forall (fun t => turn_raises t = None)
            [mkTurn (Returns "hello") ok ok; mkTurn (Returns "") ok ok;
             mkTurn (Returns " ") ok ok])
    by (repeat constructor).
  split; [exact Hts |].
  exact (sent_texts_are_typed_lines _ (mkState [] None) Hts).
Defined.

(** ** How the session ends *)

(** X9.  Whatever exception ends the loop, Ctrl+C, the end of the input or
    a failure of [sendText], the [finally] clause calls [close()] and then
    [sys.exit(0)]: the process exits with status 0, or with what [close()]
    raised.  The exit notice is printed for [KeyboardInterrupt] only; no
    other exception is reported. *)
Theorem session_after_failure (w : env) (pre : list turn) (t : turn)
    (rest : list turn) (e : exn) (s : state) :
  turns w = pre ++ t :: rest ->
  Forall (fun t => turn_raises t = None) pre -> turn_raises t = Some e ->
  session w s =
    (after_close w,
     logged s (flat_map turn_events pre ++ turn_events t ++ farewell e ++ [Close])).
Proof.
  intros Hturns Hpre Ht. unfold session, try_finally, try_except.
  rewrite Hturns, (send_loop_until_failure _ _ _ _ _ Hpre Ht).
  unfold farewell, after_close.
  destruct (is_KeyboardInterrupt e);
    unfold print, call, bind, emit, sys_exit, raise, ret;
    destruct (closed w) as [[] | e']; simpl;
    unfold logged; simpl; by rewrite <- !app_assoc.
Qed.

Lemma session_after_failure_witness :
  turns chat_env =
    [mkTurn (Returns "hello") ok ok; mkTurn (Returns "") ok ok] ++
    mkTurn (Fails KeyboardInterrupt) ok ok :: [] /\
  Forall (fun t => turn_raises t = None)
    [mkTurn (Returns "hello") ok ok; mkTurn (Returns "") ok ok] /\
  turn_raises (mkTurn (Fails KeyboardInterrupt) ok ok) = Some KeyboardInterrupt /\
  session chat_env (mkState [] None) =
    (Raised (SystemExit 0),
     mkState [Input "Ch1> "; SendText "hello" 1; AsyncSleep 100;
              Input "Ch1> ";
              Input "Ch1> "; Print ((NL +:+ "Exiting...") +:+ NL);
              Close] None).
Proof.
  assert (Hpre : Forall (fun t => turn_raises t = None)
            [mkTurn (Returns "hello") ok ok; mkTurn (Returns "") ok ok])
    by (repeat constructor).
  split; [reflexivity |]. split; [exact Hpre |]. split; [reflexivity |].
  exact (session_after_failure chat_env
           [mkTurn (Returns "hello") ok ok; mkTurn (Returns "") ok ok]
           (mkTurn (Fails KeyboardInterrupt) ok ok) [] KeyboardInterrupt
           (mkState [] None) eq_refl Hpre eq_refl).
Defined.

(** ** Failures before the loop *)

(** X10.  When the constructor of the interface raises an [Exception], the
    program prints "Error initializing SerialInterface:" with the text of
    the exception and exits with status 1; it prints no success message,
    does not wait, and touches neither the node nor the keyboard. *)
Theorem run_open_failure (w : env) (cls msg : string) :
  (2 <= length (argv w))%nat -> opened w = Fails (Exception cls msg) ->
  run w =
    (Raised (SystemExit 1),
     mkState
       [Print ("Attempting to connect to Meshtastic device at serial port: "
               +:+ port_of w +:+ NL);
        SerialInterface (port_of w);
        Print ("Error initializing SerialInterface: " +:+ msg +:+ NL)]
       (node_channels w)).
Proof.
  intros Hargv Hopened. unfold run. rewrite main_run. unfold startup.
  destruct (Nat.ltb_spec (length (argv w)) 2) as [Hlt | _]; [lia |].
  unfold connect, try_except, bind, call, print, emit, ret, raise, sys_exit.
  simpl. rewrite Hopened. simpl. unfold logged, boot; simpl.
  by rewrite !append_assoc.
Qed.

Lemma run_open_failure_witness :
  (2 <= length (argv open_failure_env))%nat /\
  opened open_failure_env =
    Fails (Exception "SerialException" "could not open port COM3") /\
  run open_failure_env =
    (Raised (SystemExit 1),
     mkState
       [Print ("Attempting to connect to Meshtastic device at serial port: COM3"
               +:+ NL);
        SerialInterface "COM3";
        Print ("Error initializing SerialInterface: could not open port COM3"
               +:+ NL)]
       None).
Proof.
  split; [simpl; lia |]. split; [reflexivity |].
  exact (run_open_failure open_failure_env "SerialException"
           "could not open port COM3" (le_n 2) eq_refl).
Defined.

(** X11.  An interrupt during the settle delay is no [Exception]: no
    handler of [main] catches it.  It ends the run where it is, after the
    success message, and [close()] is not called on the interface that was
    opened. *)
Theorem run_interrupted_settle (w : env) (e : exn) :
  (2 <= length (argv w))%nat -> opened w = Returns tt ->
  settled w = Fails e -> is_Exception e = false ->
  run w = (Raised e, mkState (connected_log w) (node_channels w)).
Proof.
  intros Hargv Hopened Hsettled He. unfold run. rewrite main_run. unfold startup.
  destruct (Nat.ltb_spec (length (argv w)) 2) as [Hlt | _]; [lia |].
  unfold connect, try_except, bind, call, print, emit, ret, raise, sys_exit.
  simpl. rewrite Hopened. simpl. rewrite Hsettled. simpl. rewrite He.
  unfold logged, boot; simpl. by rewrite !append_assoc.
Qed.

Lemma run_interrupted_settle_witness :
  (2 <= length (argv interrupted_settle_env))%nat /\
  run interrupted_settle_env =
    (Raised KeyboardInterrupt,
     mkState
       [Print ("Attempting to connect to Meshtastic device at serial port: COM3"
               +:+ NL);
        SerialInterface "COM3";
        Print ("Connected to Meshtastic device over serial!" +:+ NL);
        Sleep 2000]
       None).
Proof.
  split; [simpl; lia |].
  exact (run_interrupted_settle interrupted_settle_env KeyboardInterrupt
           (le_n 2) eq_refl eq_refl eq_refl).
Defined.

(** ** Provisioning that fails *)

(** X12.  When the node has no channel slot 1, its list of channels being
    [None] or shorter than two, the provisioning stops at the lookup: no
    attribute is set, nothing is written to the device, the channels are as
    they were, and the error line carries the text of the [TypeError] or
    of the [IndexError]. *)
Theorem configure_without_slot (w : env) (s : state) :
  (channels s = None \/
   exists chs, channels s = Some chs /\ (length chs <= 1)%nat) ->
  configure w s =
    (Normal tt,
     logged s
       (take 3 provision_steps ++
        [Print ("Error configuring Channel 1: " +:+
                match channels s with
                | None => "'NoneType' object is not subscriptable"
                | Some _ => "list index out of range"
                end +:+ NL)])).
Proof.
  intros Hslot. unfold configure, try_except. rewrite provision_run.
  destruct Hslot as [Hnone | (chs & Hchs & Hlen)].
  - rewrite Hnone. simpl. unfold print, emit.
    by rewrite logged_logged, append_assoc.
  - rewrite Hchs. rewrite (lookup_ge_None_2 chs 1) by lia.
    simpl. unfold print, emit. by rewrite logged_logged, append_assoc.
Qed.

Lemma configure_without_slot_witness :
  (exists chs, channels (mkState [] (Some [∅])) = Some chs /\ (length chs <= 1)%nat) /\
  configure chat_env (mkState [] (Some [∅])) =
    (Normal tt,
     mkState
       [Print ("Setting custom Channel 1 config (DC540 + custom PSK)..." +:+ NL);
        LocalNode; GetChannel 1;
        Print ("Error configuring Channel 1: list index out of range" +:+ NL)]
       (Some [∅])).
Proof.
  assert (Hslot : exists chs : list pyobj,
            channels (mkState [] (Some [∅])) = Some chs /\ (length chs <= 1)%nat)
    by (exists [∅]; split; [reflexivity | simpl; lia]).
  split; [exact Hslot |].
  exact (configure_without_slot chat_env (mkState [] (Some [∅])) (or_intror Hslot)).
Defined.

(** X13.  When the channel object has accepted the three assignments and
    [writeChannel] raises an [Exception], the configuration is left half
    done: the three attributes of the local slot are changed, [writeConfig]
    is not called, and the error is printed. *)
Theorem configure_write_failure (w : env) (s : state) (chs : list pyobj)
    (cls msg : string) :
  channels s = Some chs -> is_Some (chs !! 1) -> assignments_accepted w ->
  channel_written w = Fails (Exception cls msg) ->
  configure w s =
    (Normal tt,
     mkState
       (log s ++ take 7 provision_steps ++
        [Print ("Error configuring Channel 1: " +:+ msg +:+ NL)])
       (Some (alter provisioned 1 chs))).
Proof.
  intros Hchs [c Hc] (Hname & Hpsk & Hpreset) Hwritten.
  unfold configure, try_except.
  rewrite provision_run, Hchs, Hc, Hname, Hpsk, Hpreset, Hwritten. simpl.
  unfold print, emit, logged; simpl.
  by rewrite append_assoc, <- !app_assoc.
Qed.

Lemma configure_write_failure_witness :
  is_Some ([(∅ : pyobj); ∅] !! 1) /\
  assignments_accepted write_failure_env /\
  snd (configure write_failure_env (mkState [] (Some [∅; ∅]))) =
    mkState
      (take 7 provision_steps ++
       [Print ("Error configuring Channel 1: write failed" +:+ NL)])
      (Some [∅; provisioned ∅]).
Proof.
  assert (Hslot : is_Some ([(∅ : pyobj); ∅] !! 1)) by (by eexists).
  assert (Hset : assignments_accepted write_failure_env) by (by repeat split).
  split; [exact Hslot |]. split; [exact Hset |].
  exact (f_equal snd
           (configure_write_failure write_failure_env
              (mkState [] (Some [∅; ∅])) [∅; ∅] "OSError" "write failed"
              eq_refl Hslot Hset eq_refl)).
Defined.

(** X21.  When the channel object refuses the first assignment, as an
    object does that has no such attribute, the provisioning stops there:
    the slot is as it was, the key and the preset flag are not assigned,
    nothing is written to the device, and the error is printed. *)
Theorem configure_refused_assignment (w : env) (s : state) (chs : list pyobj)
    (cls msg : string) :
  channels s = Some chs -> is_Some (chs !! 1) ->
  name_set w = Fails (Exception cls msg) ->
  configure w s =
    (Normal tt,
     mkState
       (log s ++ take 4 provision_steps ++
        [Print ("Error configuring Channel 1: " +:+ msg +:+ NL)])
       (Some chs)).
Proof.
  intros Hchs [c Hc] Hname. unfold configure, try_except.
  rewrite provision_run, Hchs, Hc, Hname. simpl.
  unfold print, emit, logged; simpl.
  by rewrite append_assoc, <- !app_assoc.
Qed.

Lemma configure_refused_assignment_witness :
  is_Some ([(∅ : pyobj); ∅] !! 1) /\
  configure refused_name_env (mkState [] (Some [∅; ∅])) =
    (Normal tt,
     mkState
       (take 4 provision_steps ++
        [Print ("Error configuring Channel 1: name" +:+ NL)])
       (Some [∅; ∅])).
Proof.
  assert (Hslot : is_Some ([(∅ : pyobj); ∅] !! 1)) by (by eexists).
  split; [exact Hslot |].
  exact (configure_refused_assignment refused_name_env
           (mkState [] (Some [∅; ∅])) [∅; ∅] "AttributeError" "name"
           eq_refl Hslot eq_refl).
Defined.

(** X14.  An exception of the provisioning that is no [Exception], such
    as an interrupt while the channel is written, is not caught: it ends
    the run there, before the banner and the loop, and [close()] is not
    called. *)
Theorem run_interrupted_provisioning (w : env) (e : exn) (s' : state) :
  (2 <= length (argv w))%nat ->
  opened w = Returns tt -> settled w = Returns tt ->
  provision w (logged (boot w) (connected_log w)) = (Raised e, s') ->
  is_Exception e = false ->
  run w = (Raised e, s') /\ count_close (log s') = 0.
Proof.
  intros Hargv Hopened Hsettled Hprovision He.
  assert (Hstartup : startup w (boot w) = (Raised e, s')).
  { rewrite (startup_connected w _ Hargv Hopened Hsettled).
    unfold bind at 1. unfold configure, try_except.
    by rewrite Hprovision, He. }
  assert (Hrun : run w = (Raised e, s')).
  { unfold run. by rewrite main_run, Hstartup. }
  split; [exact Hrun |].
  destruct (run_cases w) as [(_ & Hcount & _) | (s1 & out & Hnormal & _)].
  - by rewrite Hrun in Hcount.
  - rewrite Hstartup in Hnormal. discriminate.
Qed.

Lemma run_interrupted_provisioning_witness :
  fst (provision interrupted_write_env
         (logged (boot interrupted_write_env)
            (connected_log interrupted_write_env))) =
    Raised KeyboardInterrupt /\
  fst (run interrupted_write_env) = Raised KeyboardInterrupt.
Proof.
  split; [reflexivity |].
  exact (f_equal fst
           (proj1 (run_interrupted_provisioning interrupted_write_env
                     KeyboardInterrupt _ (le_n 2) eq_refl eq_refl eq_refl
                     eq_refl))).
Defined.

(** X15.  When the node has a slot 1, the channel object accepts the
    three assignments and every call succeeds, [main] reaches the loop
    having logged, in this order, the connection, the nine steps of the
    provisioning and the banner, with slot 1 of the node provisioned. *)
Theorem startup_success (w : env) (chs : list pyobj) :
  (2 <= length (argv w))%nat ->
  opened w = Returns tt -> settled w = Returns tt ->
  node_channels w = Some chs -> is_Some (chs !! 1) ->
  assignments_accepted w ->
  channel_written w = Returns tt -> config_written w = Returns tt ->
  startup w (boot w) =
    (Normal tt,
     mkState (connected_log w ++ provision_steps ++ banner_log)
       (Some (alter provisioned 1 chs))).
Proof.
  intros Hargv Hopened Hsettled Hchs [c Hc] (Hname & Hpsk & Hpreset)
    Hchannel Hconfig.
  rewrite (startup_connected w _ Hargv Hopened Hsettled).
  unfold bind, configure, try_except. rewrite provision_run.
  unfold boot. simpl.
  rewrite Hchs, Hc, Hname, Hpsk, Hpreset, Hchannel, Hconfig.
  rewrite banner_run. unfold logged; simpl. reflexivity.
Qed.

Lemma startup_success_witness :
  (2 <= length (argv chat_env))%nat /\
  is_Some ([(∅ : pyobj); ∅] !! 1) /\
  assignments_accepted chat_env /\
  startup chat_env (boot chat_env) =
    (Normal tt,
     mkState (connected_log chat_env ++ provision_steps ++ banner_log)
       (Some [∅; provisioned ∅])).
Proof.
  assert (Hslot : is_Some ([(∅ : pyobj); ∅] !! 1)) by (by eexists).
  assert (Hset : assignments_accepted chat_env) by (by repeat split).
  split; [simpl; lia |]. split; [exact Hslot |]. split; [exact Hset |].
  exact (startup_success chat_env [∅; ∅] (le_n 2) eq_refl eq_refl eq_refl Hslot
           Hset eq_refl eq_refl).
Defined.

(** ** What a run does to the node *)

Lemma keeps_ret {A} (a : A) : keeps_channels (ret a).
Proof. by intros s. Qed.

Lemma keeps_raise {A} (e : exn) : keeps_channels (@raise A e).
Proof. by intros s. Qed.

Lemma keeps_wait {A} : keeps_channels (@wait A).
Proof. by intros s. Qed.

Lemma keeps_emit ev : keeps_channels (emit ev).
Proof. by intros s. Qed.

Lemma keeps_bind {A B} (m : M A) (k : A -> M B) :
  keeps_channels m -> (forall a, keeps_channels (k a)) -> keeps_channels (bind m k).
Proof.
  intros Hm Hk s. unfold bind. specialize (Hm s).
  destruct (m s) as [[a | e |] s']; simpl in *; [| done..].
  by rewrite Hk.
Qed.

Lemma keeps_try_except {A} (body : M A) catches handler :
  keeps_channels body -> (forall e, keeps_channels (handler e)) ->
  keeps_channels (try_except body catches handler).
Proof.
  intros Hbody Hhandler s. unfold try_except. specialize (Hbody s).
  destruct (body s) as [[a | e |] s']; simpl in *; [done | | done].
  destruct (catches e); [| done]. by rewrite Hhandler.
Qed.

Lemma keeps_try_finally {A} (body : M A) (fin : M unit) :
  keeps_channels body -> keeps_channels fin ->
  keeps_channels (try_finally body fin).
Proof.
  intros Hbody Hfin s. unfold try_finally. specialize (Hbody s).
  destruct (body s) as [[a | e |] s']; simpl in *; [| | done].
  all: specialize (Hfin s'); destruct (fin s') as [[[] | e' |] s''];
    simpl in *; congruence.
Qed.

Lemma keeps_call {A} ev (r : answer A) : keeps_channels (call ev r).
Proof.
  apply keeps_bind; [apply keeps_emit |]. intros _.
  destruct r; [apply keeps_ret | apply keeps_raise].
Qed.

Lemma keeps_print text : keeps_channels (print text).
Proof. apply keeps_emit. Qed.

Lemma keeps_send_loop ts : keeps_channels (send_loop ts).
Proof.
  induction ts as [| t ts IH]; simpl.
  - apply keeps_bind; [apply keeps_emit | intros _; apply keeps_wait].
  - apply keeps_bind; [apply keeps_call |]. intros msg.
    destruct (negb (String.eqb msg "")); [| done].
    apply keeps_bind; [apply keeps_call |]. intros _.
    apply keeps_bind; [apply keeps_call | done].
Qed.

Lemma keeps_session w : keeps_channels (session w).
Proof.
  unfold session. apply keeps_try_finally.
  - apply keeps_try_except; [apply keeps_send_loop |].
    intros _. apply keeps_print.
  - apply keeps_bind; [apply keeps_call |]. intros _. apply keeps_raise.
Qed.

Lemma keeps_connect w port : keeps_channels (connect w port).
Proof.
  unfold connect. apply keeps_try_except.
  - apply keeps_bind; [apply keeps_call |]. intros _.
    apply keeps_bind; [apply keeps_print |]. intros _. apply keeps_call.
  - intros e. apply keeps_bind; [apply keeps_print |]. intros _. apply keeps_raise.
Qed.

Lemma keeps_banner : keeps_channels banner.
Proof.
  unfold banner. repeat (apply keeps_bind; [apply keeps_print | intros _]).
  apply keeps_print.
Qed.

Lemma configure_at_most_provisioned w s :
  at_most_provisioned
    (fun k => 1 <= k <= 3 /\ (assignments_accepted w -> k = 3))
    s (snd (configure w s)).
Proof.
  unfold at_most_provisioned, assignments_accepted.
  rewrite configure_channels, provision_run.
  destruct (channels s) as [chs |] eqn:Hchs; [| by left].
  destruct (chs !! 1) as [c |] eqn:Hc; [| by left].
  destruct (name_set w) as [[] | e1] eqn:Hname; [| by left].
  assert (Hslot : is_Some (chs !! 1)) by (by eexists).
  destruct (psk_set w) as [[] | e2] eqn:Hpsk.
  2: { right. exists chs, 1. repeat split; try done; try lia.
       by intros (_ & ? & _). }
  destruct (preset_set w) as [[] | e3] eqn:Hpreset.
  2: { right. exists chs, 2. repeat split; try done; try lia.
       by intros (_ & _ & ?). }
  right. exists chs, 3. repeat split; try done; try lia.
  destruct (channel_written w) as [[] | e4]; [| done].
  by destruct (config_written w) as [[] | e5].
Qed.

Lemma at_most_provisioned_after K {A B} (m : M A) (k : A -> M B) :
  keeps_channels m ->
  (forall a s, at_most_provisioned K s (snd (k a s))) ->
  forall s, at_most_provisioned K s (snd (bind m k s)).
Proof.
  intros Hm Hk s. unfold bind. specialize (Hm s).
  destruct (m s) as [[a | e |] s']; simpl in *; [| by left..].
  specialize (Hk a s'). unfold at_most_provisioned in *. by rewrite <- Hm.
Qed.

Lemma at_most_provisioned_before K {A B} (m : M A) (k : A -> M B) :
  (forall s, at_most_provisioned K s (snd (m s))) ->
  (forall a, keeps_channels (k a)) ->
  forall s, at_most_provisioned K s (snd (bind m k s)).
Proof.
  intros Hm Hk s. unfold bind. specialize (Hm s).
  destruct (m s) as [[a | e |] s']; simpl in *; [| done..].
  unfold at_most_provisioned in *. by rewrite (Hk a s').
Qed.

Lemma startup_at_most_provisioned w s :
  at_most_provisioned
    (fun k => 1 <= k <= 3 /\ (assignments_accepted w -> k = 3))
    s (snd (startup w s)).
Proof.
  revert s. unfold startup.
  apply at_most_provisioned_after.
  { destruct (length (argv w) <? 2)%nat; [| apply keeps_ret].
    apply keeps_bind; [apply keeps_print | intros _; apply keeps_raise]. }
  intros _. apply at_most_provisioned_after; [apply keeps_print |].
  intros _. apply at_most_provisioned_after; [apply keeps_connect |].
  intros _. apply at_most_provisioned_before.
  - apply configure_at_most_provisioned.
  - intros _. apply keeps_banner.
Qed.

(** X16.  All that a run changes on the local node is slot 1 of its
    channels, by the three assignments: at the end the channels are those
    the node had, or those with the first one, two or three of the
    assignments made on slot 1.  When the channel object accepts the
    assignments they are those the node had or those with slot 1
    provisioned.  The other slots, and the loop, change nothing. *)
Theorem run_changes_slot_1_only (w : env) :
  (channels (snd (run w)) = node_channels w \/
   exists chs k,
     node_channels w = Some chs /\ is_Some (chs !! 1) /\ 1 <= k <= 3 /\
     channels (snd (run w)) = Some (alter (assigned k) 1 chs)) /\
  (assignments_accepted w ->
   channels (snd (run w)) = node_channels w \/
   exists chs,
     node_channels w = Some chs /\ is_Some (chs !! 1) /\
     channels (snd (run w)) = Some (alter provisioned 1 chs)).
Proof.
  assert (Hrun : at_most_provisioned
            (fun k => 1 <= k <= 3 /\ (assignments_accepted w -> k = 3))
            (boot w) (snd (run w))).
  { pose proof (startup_at_most_provisioned w (boot w)) as Hstartup.
    unfold run. rewrite main_run.
    destruct (startup w (boot w)) as [[[] | e |] s']; simpl in *; try done.
    unfold at_most_provisioned in *. by rewrite (keeps_session w s'). }
  destruct Hrun as [Hsame | (chs & k & Hchs & Hslot & [Hk Hfull] & Hend)].
  - split; [by left |]. intros _. by left.
  - split.
    + right. by exists chs, k.
    + intros Hset. right. exists chs. rewrite (Hfull Hset) in Hend. done.
Qed.

(** ** The order of a run *)

(** The loop and the session only add input calls, sends on channel 1,
    pauses, the exit notice and [close()]. *)
Lemma session_emits (P : event -> Prop) w :
  P (Input "Ch1> ") -> (forall msg, P (SendText msg 1)) ->
  P (AsyncSleep 100) -> (forall text, P (Print text)) -> P Close ->
  emits P (session w).
Proof.
  intros Hinput Hsend Hpause Hprint Hclose.
  assert (Hloop : forall ts, emits P (send_loop ts)).
  { induction ts as [| t ts IH]; simpl.
    - apply emits_bind; [by apply emits_emit | intros _; apply emits_wait].
    - apply emits_bind; [by apply emits_call |]. intros msg.
      destruct (negb (String.eqb msg "")); [| done].
      apply emits_bind; [by apply emits_call |]. intros _.
      apply emits_bind; [by apply emits_call | done]. }
  unfold session. apply emits_try_finally.
  - apply emits_try_except; [apply Hloop |]. intros _. by apply emits_print.
  - apply emits_bind; [by apply emits_call |]. intros _. apply emits_raise.
Qed.

Lemma no_device_op_before (P : event -> Prop) (a l l1 l2 : list event) ev :
  Forall P a -> ~ P ev -> a ++ l = l1 ++ ev :: l2 -> a `prefix_of` l1.
Proof.
  intros Ha Hev. revert l1. induction Ha as [| x a Hx _ IH]; intros l1 Heq.
  - apply prefix_nil.
  - destruct l1 as [| y l1]; simpl in Heq; inversion Heq; subst.
    + done.
    + apply prefix_cons. by apply IH.
Qed.

(** Either a run never operates on the connection, or its log starts with
    the whole connection sequence, settle delay included. *)
Lemma run_log_shape w :
  Forall (fun ev => is_device_op ev = false) (log (snd (run w))) \/
  exists l, log (snd (run w)) = connected_log w ++ l.
Proof.
  destruct (Nat.ltb_spec (length (argv w)) 2) as [Hlt | Hargv].
  { left. unfold run. rewrite main_run, startup_usage by done.
    simpl. by repeat constructor. }
  destruct (opened w) as [[] | e] eqn:Hopened.
  2: { left. unfold run. rewrite main_run. unfold startup.
       destruct (Nat.ltb_spec (length (argv w)) 2) as [Hlt | _]; [lia |].
       unfold connect, try_except, bind, call, print, emit, ret, raise, sys_exit.
       simpl. rewrite Hopened. simpl.
       destruct (is_Exception e); simpl; by repeat constructor. }
  right. destruct (settled w) as [[] | e] eqn:Hsettled.
  2: { unfold run. rewrite main_run. unfold startup.
       destruct (Nat.ltb_spec (length (argv w)) 2) as [Hlt | _]; [lia |].
       unfold connect, try_except, bind, call, print, emit, ret, raise, sys_exit.
       simpl. rewrite Hopened. simpl. rewrite Hsettled. simpl.
       destruct (is_Exception e); simpl; eexists;
         unfold connected_log, port_of; rewrite !append_assoc; reflexivity. }
  assert (Hrest : emits (fun _ => True) ((configure w >> banner) >> session w)).
  { apply emits_bind.
    - unfold configure, provision, banner, local_node.
      repeat first
        [ progress intros
        | match goal with
          | |- emits _ (bind _ _) => apply emits_bind
          | |- emits _ (try_except _ _ _) => apply emits_try_except
          | |- emits _ (call _ _) => by apply emits_call
          | |- emits _ (print _) => by apply emits_print
          | |- emits _ (emit _) => by apply emits_emit
          | |- emits _ (get_channel _) => by apply emits_get_channel
          | |- emits _ (setattr _ _ _ _) => by apply emits_setattr
          end ].
    - intros _. by apply session_emits. }
  destruct (Hrest (logged (boot w) (connected_log w))) as (out & Hlog & _).
  exists out. unfold run. rewrite main_run.
  rewrite (startup_connected w _ Hargv Hopened Hsettled).
  exact Hlog.
Qed.

(** X17.  Nothing is done on the connection before the settle delay: in
    every run, whatever comes before a use of the local node, a write to
    the device, an input call, a send or [close()] starts with the
    construction of the interface, the success message and the two
    seconds of sleep. *)
Theorem device_ops_after_settle (w : env) (l1 l2 : list event) (ev : event) :
  log (snd (run w)) = l1 ++ ev :: l2 -> is_device_op ev = true ->
  connected_log w `prefix_of` l1.
Proof.
  intros Hlog Hev. destruct (run_log_shape w) as [Hnone | [l Hshape]].
  - rewrite Hlog in Hnone. apply Forall_app in Hnone as [_ Hnone].
    apply Forall_cons in Hnone as [Hnot _]. congruence.
  - rewrite Hshape in Hlog.
    eapply (no_device_op_before (fun ev => is_device_op ev = false));
      [| | exact Hlog].
    + by repeat constructor.
    + congruence.
Qed.

Lemma device_ops_after_settle_witness :
  log (snd (run chat_env)) =
    (connected_log chat_env ++ provision_steps ++ banner_log ++ [Input "Ch1> "]) ++
    SendText "hello" 1 ::
    [AsyncSleep 100; Input "Ch1> "; Input "Ch1> ";
     Print ((NL +:+ "Exiting...") +:+ NL); Close] /\
  connected_log chat_env `prefix_of`
    (connected_log chat_env ++ provision_steps ++ banner_log ++ [Input "Ch1> "]).
Proof.
  assert (Hlog : log (snd (run chat_env)) =
    (connected_log chat_env ++ provision_steps ++ banner_log ++ [Input "Ch1> "]) ++
    SendText "hello" 1 ::
    [AsyncSleep 100; Input "Ch1> "; Input "Ch1> ";
     Print ((NL +:+ "Exiting...") +:+ NL); Close])
    by (vm_compute; reflexivity).
  split; [exact Hlog |].
  exact (device_ops_after_settle chat_env _ _ _ Hlog eq_refl).
Defined.

(** X18.  [main] never returns: a run ends by [sys.exit], by an exception
    that nothing catches, or not at all. *)
Theorem run_never_returns (w : env) (a : unit) : fst (run w) <> Normal a.
Proof.
  destruct (run_cases w) as
    [(_ & _ & _ & Hnever) | (s' & out & _ & _ & _ & [[Hwait _] | [Hend _]])].
  - apply Hnever.
  - by rewrite Hwait.
  - rewrite Hend. by destruct (closed w).
Qed.

(** ** The port *)

Lemma space_width_le l : space_width l <= length l.
Proof.
  destruct l as [| x [| y [| z l]]]; simpl; [lia | | |].
  - destruct (is_space x); lia.
  - destruct (is_space x); [lia |]. destruct (is_space2 _ _); lia.
  - destruct (is_space x); [lia |]. destruct (is_space2 _ _); [lia |].
    destruct (is_space3 _ _ _); lia.
Qed.

(** The character that bytes start with is settled by these bytes. *)
Lemma space_width_app a b :
  space_width a <> 0 -> space_width (a ++ b) = space_width a.
Proof.
  destruct a as [| x [| y [| z a]]]; simpl; [done | | |].
  - by destruct (is_space x).
  - destruct (is_space x); [done |]. by destruct (is_space2 _ _).
  - done.
Qed.

Lemma lstrip_fuel_width n l :
  length l <= n -> space_width (lstrip_fuel n l) = 0.
Proof.
  revert l. induction n as [| n IH]; intros l Hlen; simpl.
  - by destruct l; [| simpl in Hlen; lia].
  - destruct (space_width l) as [| k] eqn:Hwidth; [done |].
    apply IH. rewrite length_drop. lia.
Qed.

Lemma lstrip_fuel_id n l : space_width l = 0 -> lstrip_fuel n l = l.
Proof. intros Hwidth. destruct n; simpl; [done |]. by rewrite Hwidth. Qed.

Lemma lstrip_fuel_more n m l :
  length l <= n -> length l <= m -> lstrip_fuel n l = lstrip_fuel m l.
Proof.
  revert m l. induction n as [| n IH]; intros m l Hn Hm.
  - destruct l; [| simpl in Hn; lia]. by destruct m.
  - destruct m as [| m].
    + destruct l; [done | simpl in Hm; lia].
    + simpl. destruct (space_width l) as [| k]; [done |].
      apply IH; rewrite length_drop; lia.
Qed.

Lemma lstrip_bytes_unfold l :
  lstrip_bytes l =
    match space_width l with
    | 0 => l
    | S k => lstrip_bytes (drop (S k) l)
    end.
Proof.
  unfold lstrip_bytes. destruct (length l) as [| n] eqn:Hlen.
  { by destruct l. }
  change (lstrip_fuel (S n) l)
    with (match space_width l with
          | 0 => l
          | S k => lstrip_fuel n (drop (S k) l)
          end).
  destruct (space_width l) as [| k]; [done |].
  apply lstrip_fuel_more; rewrite length_drop; lia.
Qed.

Lemma all_space_width l : all_space l = true -> l <> [] -> space_width l <> 0.
Proof.
  unfold all_space. intros Hall Hl Hwidth.
  rewrite lstrip_bytes_unfold, Hwidth in Hall. by destruct l.
Qed.

(** White space before other bytes is stripped with them. *)
Lemma lstrip_bytes_app a b :
  all_space a = true -> lstrip_bytes (a ++ b) = lstrip_bytes b.
Proof.
  remember (length a) as n eqn:Hn. revert a Hn.
  induction n as [n IH] using lt_wf_ind. intros a Hn Hall.
  destruct (decide (a = [])) as [-> | Ha]; [done |].
  pose proof (all_space_width a Hall Ha) as Hwidth.
  pose proof (space_width_le a) as Hle.
  destruct (space_width a) as [| k] eqn:Hk; [done |].
  rewrite (lstrip_bytes_unfold (a ++ b)), space_width_app, Hk by congruence.
  rewrite drop_app_le by lia.
  apply (IH (length (drop (S k) a))); [| done |].
  - rewrite length_drop. subst n. lia.
  - unfold all_space in *. by rewrite lstrip_bytes_unfold, Hk in Hall.
Qed.

Lemma rstrip_bytes_split l :
  exists w, l = rstrip_bytes l ++ w /\ all_space w = true.
Proof.
  induction l as [| c l (w & Hl & Hw)]; [by exists [] |].
  simpl rstrip_bytes. destruct (all_space (c :: l)) eqn:Hall.
  - by exists (c :: l).
  - exists w. split; [| done]. simpl. by rewrite <- Hl.
Qed.

(** What is left by [rstrip_bytes] does not end with white space. *)
Lemma rstrip_bytes_end l pre w :
  rstrip_bytes l = pre ++ w -> w <> [] -> all_space w = false.
Proof.
  revert pre. induction l as [| c l IH]; intros pre Heq Hw.
  - simpl in Heq. by destruct pre, w.
  - simpl rstrip_bytes in Heq. destruct (all_space (c :: l)) eqn:Hall.
    { by destruct pre, w. }
    destruct pre as [| x pre]; simpl in Heq.
    + destruct (all_space w) eqn:Hspace; [| done].
      destruct (rstrip_bytes_split l) as (w' & Hl & Hw').
      assert (Hwhole : all_space (c :: l) = true); [| congruence].
      rewrite Hl, app_comm_cons, Heq. unfold all_space in *.
      by rewrite lstrip_bytes_app.
    + inversion Heq; subst. by eapply IH.
Qed.

Lemma rstrip_bytes_id l :
  (forall pre w, l = pre ++ w -> w <> [] -> all_space w = false) ->
  rstrip_bytes l = l.
Proof.
  induction l as [| c l IH]; intros Hend; [done |].
  simpl rstrip_bytes. rewrite (Hend [] (c :: l)) by done.
  f_equal. apply IH. intros pre w Hl Hw.
  apply (Hend (c :: pre) w); [by rewrite Hl | done].
Qed.

Lemma rstrip_bytes_width l :
  space_width l = 0 -> space_width (rstrip_bytes l) = 0.
Proof.
  intros Hwidth. destruct (rstrip_bytes_split l) as (w & Hl & _).
  destruct (decide (space_width (rstrip_bytes l) = 0)) as [| Hne]; [done |].
  rewrite Hl, space_width_app in Hwidth by done. done.
Qed.

(** [strip] leaves no white space at either end, and leaves alone a
    string that has none there. *)
Lemma strip_trimmed s : trimmed (strip s).
Proof.
  unfold trimmed, strip. rewrite list_ascii_of_string_of_list_ascii. split.
  - apply rstrip_bytes_width, lstrip_fuel_width. done.
  - apply rstrip_bytes_end.
Qed.

Lemma strip_id s : trimmed s -> strip s = s.
Proof.
  intros [Hstart Hend]. unfold strip, lstrip_bytes.
  rewrite lstrip_fuel_id by done. rewrite rstrip_bytes_id by done.
  apply string_of_list_ascii_of_string.
Qed.

Lemma main_opens_port w : emits (opens_port w) (main w).
Proof.
  apply emits_bind.
  - unfold startup, connect, configure, provision, banner, local_node, sys_exit.
    repeat first
      [ progress intros
      | match goal with
        | |- emits _ (if ?b then _ else _) => destruct b
        | |- emits _ (bind _ _) => apply emits_bind
        | |- emits _ (try_except _ _ _) => apply emits_try_except
        | |- emits _ (call _ _) => by apply emits_call
        | |- emits _ (print _) => by apply emits_print
        | |- emits _ (emit _) => by apply emits_emit
        | |- emits _ (get_channel _) => by apply emits_get_channel
        | |- emits _ (setattr _ _ _ _) => by apply emits_setattr
        | |- emits _ (ret _) => apply emits_ret
        | |- emits _ (raise _) => apply emits_raise
        end ].
  - intros _. by apply session_emits.
Qed.

(** X19.  The only device path for which an interface is ever constructed
    is the first command-line argument with the white space around it
    removed, Unicode white space included: it neither starts nor ends
    with a white-space character, and it is the argument itself when
    that has none around it. *)
Theorem port_is_stripped_argument (w : env) (p : string) :
  In (SerialInterface p) (log (snd (run w))) ->
  p = strip (nth 1 (argv w) "") /\
  trimmed p /\
  (trimmed (nth 1 (argv w) "") -> p = nth 1 (argv w) "").
Proof.
  intros Hin.
  destruct (main_opens_port w (boot w)) as (out & Hlog & Hout).
  unfold run in Hin. rewrite Hlog in Hin. simpl in Hin.
  rewrite Forall_forall in Hout. apply list_elem_of_In in Hin.
  specialize (Hout _ Hin). simpl in Hout. subst p.
  split; [done |]. split; [apply strip_trimmed |].
  intros Htrimmed. unfold port_of. by apply strip_id.
Qed.

Lemma port_is_stripped_argument_witness :
  In (SerialInterface "COM3")
    (log (snd (run (with_argv chat_env
                      ["simcccc.py"; NBSP +:+ "COM3 " +:+ NBSP; "extra"])))) /\
  "COM3" = strip (NBSP +:+ "COM3 " +:+ NBSP).
Proof.
  assert (Hin : In (SerialInterface "COM3")
            (log (snd (run (with_argv chat_env
                              ["simcccc.py"; NBSP +:+ "COM3 " +:+ NBSP; "extra"])))))
    by (vm_compute; tauto).
  split; [exact Hin |].
  exact (proj1 (port_is_stripped_argument
                  (with_argv chat_env
                     ["simcccc.py"; NBSP +:+ "COM3 " +:+ NBSP; "extra"])
                  "COM3" Hin)).
Defined.

(** X20.  Of the command line only the first argument counts, and only up
    to the white space around it, Unicode white space included: two
    command lines with at least one argument each and the same stripped
    first argument give the same run.  The program name and any further
    arguments are ignored. *)
Theorem run_depends_on_port_only (w : env) (a a' : list string) :
  (2 <= length a)%nat -> (2 <= length a')%nat ->
  strip (nth 1 a "") = strip (nth 1 a' "") ->
  run (with_argv w a) = run (with_argv w a').
Proof.
  intros Ha Ha' Hport. unfold run, main, startup, boot. simpl.
  destruct (Nat.ltb_spec (length a) 2) as [Hlt | _]; [lia |].
  destruct (Nat.ltb_spec (length a') 2) as [Hlt | _]; [lia |].
  by rewrite Hport.
Qed.

Lemma run_depends_on_port_only_witness :
  (2 <= length ["simcccc.py"; NBSP +:+ "COM3 "; "extra"])%nat /\
  (2 <= length ["chat"; "COM3"])%nat /\
  strip (nth 1 ["simcccc.py"; NBSP +:+ "COM3 "; "extra"] "") =
    strip (nth 1 ["chat"; "COM3"] "") /\
  run (with_argv chat_env ["simcccc.py"; NBSP +:+ "COM3 "; "extra"]) =
    run (with_argv chat_env ["chat"; "COM3"]).
Proof.
  assert (Ha : (2 <= length ["simcccc.py"; NBSP +:+ "COM3 "; "extra"])%nat)
    by (simpl; lia).
  split; [exact Ha |]. split; [exact (le_n 2) |]. split; [reflexivity |].
  exact (run_depends_on_port_only chat_env
           ["simcccc.py"; NBSP +:+ "COM3 "; "extra"]
           ["chat"; "COM3"] Ha (le_n 2) eq_refl).
Defined.
